(** * Sale estimate service and bill actions of bigcapital

    A shallow embedding of [SaleEstimateService] (server side, TypeScript)
    and of the bill Redux actions (client side), followed by the
    properties of the tenant-scoped CRUD lifecycle that the specification
    states about them.

    Conventions of the embedding.
    - A JavaScript object with scalar properties is a finite map from
      property names to values ([gmap string val]); a property that is
      absent reads as [None] (JavaScript's [undefined]).
    - Object spread [{ ...a, ...b }] is the union of the maps in which the
      later operand wins, lodash's [omit] deletes keys.
    - Numbers are the integers among the IEEE doubles ([Z]); a sum is
      rounded the way the addition of doubles rounds it. How an entry's
      amount is computed ([ItemEntry.calcAmount]) is a parameter.
    - The object mapper identifies a camelCase property with its snake_case
      column ([estimateNumber] / [estimate_number]); the embedding writes
      one key per column, spelled as the column.
    - Every [await] on the storage layer is a storage call that may reject;
      [outage n] tells whether the [n]-th storage call of a run rejects.
      A graph write is one such call that issues several statements, and
      the run may break between any two of them. A thrown error aborts
      the rest of the method and keeps whatever was written before it:
      there is no transaction and no rollback.
    - The keys of a table come from its AUTO_INCREMENT counter, which never
      hands out a key twice, not even a deleted one.
    - Log lines ([this.logger.info]) are left out. *)

From stdpp Require Import gmap strings list.

Open Scope Z_scope.

(** ** JavaScript values and objects *)

Inductive val :=
  | VNull
  | VBool (b : bool)
  | VNum (n : Z)
  | VStr (s : string).

#[global] Instance val_eq_dec : EqDecision val.
Proof. solve_decision. Defined.

Abbreviation obj := (gmap string val).

(** Truthiness of an optional numeric argument such as [notEstimateId?]. *)
Definition truthy_num (n : option Z) : bool :=
  match n with
  | Some k => negb (k =? 0)
  | None => false
  end.

(** The number held by a property, if it holds one. *)
Definition as_id (v : option val) : option Z :=
  match v with
  | Some (VNum n) => Some n
  | _ => None
  end.

(** [{ ...base, ...over }]: the later operand wins. *)
Definition spread (base over : obj) : obj := over ∪ base.

(** lodash [omit(o, keys)]. *)
Definition omit (o : obj) (keys : list string) : obj :=
  foldr delete o keys.

(** The double nearest to an integer, ties to the even mantissa; every
    integer up to [2 ^ 53] in magnitude is a double. (Magnitudes from
    [2 ^ 1024] on, which overflow, are outside the embedding.) *)
Definition to_double (x : Z) : Z :=
  let a := Z.abs x in
  if a <=? 2 ^ 53 then x
  else
    let ulp := 2 ^ (Z.log2 a - 52) in
    let q := a / ulp in
    let r := a mod ulp in
    let q' := if 2 * r <? ulp then q
              else if ulp <? 2 * r then q + 1
              else if Z.even q then q else q + 1 in
    Z.sgn x * (q' * ulp).

(** [a + b] on numbers. *)
Definition js_add (a b : Z) : Z := to_double (a + b).

(** lodash [sumBy(xs, f)]: [0] on the empty array; otherwise the first
    value, to which the others are added from left to right. *)
Definition sumBy {A} (xs : list A) (f : A → Z) : Z :=
  match xs with
  | [] => 0
  | x :: xs' => fold_left (λ acc y, js_add acc (f y)) xs' (f x)
  end.

(** A document as it travels through the service: the scalar properties
    and the [entries] array (DTOs, graphs handed to the object mapper and
    fetched graphs all have this shape). *)
Record graph := Graph { root : obj; entries : list obj }.

#[global] Instance graph_eq_dec : EqDecision graph.
Proof. solve_decision. Defined.

(** ** Tenant storage *)

(** A table row: the auto-assigned primary key and the other columns. *)
Record record := Row { rid : Z; cols : obj }.

#[global] Instance record_eq_dec : EqDecision record.
Proof. solve_decision. Defined.

(** The row as the JavaScript object a query returns. *)
Definition to_obj (r : record) : obj := <["id" := VNum (rid r)]> (cols r).

(** The models of one tenant ([this.tenancy.models(tenantId)]), with the
    AUTO_INCREMENT counters of the two tables the service inserts into. *)
Record db := Db {
  SaleEstimate : list record;
  ItemEntry : list record;
  Item : list record;
  Customer : list record;
  SaleEstimate_seq : Z;
  ItemEntry_seq : Z;
}.

(** Modelled from the spec: the Tenant Resolver ([TenancyService], source
    not available) gives, for a tenant identifier, the data-access handles
    of that tenant's storage partition. *)
Definition tenants := Z → db.

Definition set_db (st : tenants) (tenantId : Z) (d : db) : tenants :=
  λ t, if decide (t = tenantId) then d else st t.

(** One more than the largest key a table holds. *)
Definition past_keys (t : list record) : Z :=
  1 + foldr (λ r m, Z.max (rid r) m) 0 t.

(** The key a table hands out next: its counter, which is never at or
    below a key the table holds. An insert moves the counter past the key
    it used and a delete leaves it where it is, so that no key is handed
    out twice. *)
Definition next_key (seq : Z) (t : list record) : Z :=
  Z.max seq (past_keys t).

(** ** Errors, events and the service monad *)

(** A [ServiceError] of the service, a rejection by the storage, and the
    error of the query builder when it is handed an [undefined] value to
    bind. *)
Inductive error :=
  | ServiceError (code : string) (ids : list Z)
  | StorageError
  | UndefinedBinding.

#[global] Instance error_eq_dec : EqDecision error.
Proof. solve_decision. Defined.

Module ERRORS.
Definition SALE_ESTIMATE_NOT_FOUND : string := "SALE_ESTIMATE_NOT_FOUND".
Definition CUSTOMER_NOT_FOUND : string := "CUSTOMER_NOT_FOUND".
Definition SALE_ESTIMATE_NUMBER_EXISTANCE : string :=
  "SALE_ESTIMATE_NUMBER_EXISTANCE".
Definition ITEMS_IDS_NOT_EXISTS : string := "ITEMS_IDS_NOT_EXISTS".
(** Codes raised by [ItemsEntriesService], whose source is not available. *)
Definition ENTRIES_IDS_NOT_FOUND : string := "ENTRIES_IDS_NOT_FOUND".
Definition NOT_SELLABLE_ITEMS : string := "NOT_SELLABLE_ITEMS".
End ERRORS.

Inductive outcome (A : Type) :=
  | Ok (a : A)
  | Throw (e : error).
Arguments Ok {A} a.
Arguments Throw {A} e.

(** Lifecycle events ([events.saleEstimates.*]). *)
Inductive event_name := onCreated | onEdited | onDeleted.

Inductive pval :=
  | PNum (n : Z)
  | PRow (o : obj)
  | PGraph (g : graph).

(** A dispatched event: its name and the payload object, [None] when
    [dispatch] was called with the name alone. *)
Definition event : Type := event_name * option (list (string * pval)).

(** The world a method runs in: the tables, the events dispatched so
    far, the number of storage calls made so far, and, for the storage
    call of each number, after how many of its statements the storage
    breaks off when that call is a graph write ([None]: it does not). *)
Record world := World {
  storage : tenants;
  dispatched : list event;
  calls : nat;
  cut : nat → option nat;
}.

Definition M (A : Type) : Type := world → outcome A * world.

Definition ret {A} (a : A) : M A := λ w, (Ok a, w).

Definition throw {A} (e : error) : M A := λ w, (Throw e, w).

Definition bind {A B} (m : M A) (k : A → M B) : M B :=
  λ w, match m w with
       | (Ok a, w') => k a w'
       | (Throw e, w') => (Throw e, w')
       end.

(** [const x = await m; k] and [await m; k]. *)
Notation "'await' x ':=' m 'in' k" := (bind m (λ x, k))
  (at level 10, x name, m at level 100, k at level 200,
   format "'[v' 'await'  x  ':='  m  'in' '/' k ']'").
Notation "'await' ' x ':=' m 'in' k" := (bind m (λ x, k))
  (at level 10, x strict pattern, m at level 100, k at level 200,
   format "'[v' 'await'  ' x  ':='  m  'in' '/' k ']'").
Notation "'await_' m 'in' k" := (bind m (λ _, k))
  (at level 10, m at level 100, k at level 200,
   format "'[v' 'await_'  m  'in' '/' k ']'").

Definition tick (w : world) : world :=
  World (storage w) (dispatched w) (S (calls w)) (cut w).

(** [this.eventDispatcher.dispatch(name, payload)]. *)
Definition dispatch (name : event_name)
    (payload : option (list (string * pval))) : M unit :=
  λ w, (Ok tt, World (storage w) (dispatched w ++ [(name, payload)])
                     (calls w) (cut w)).

Section Storage.
Context (outage : nat → bool).

(** An awaited read of a tenant's tables. *)
Definition read {A} (tenantId : Z) (q : db → A) : M A :=
  λ w, if outage (calls w) then (Throw StorageError, tick w)
       else (Ok (q (storage w tenantId)), tick w).

(** An awaited write of one statement: a storage call that either applies
    or rejects and leaves the tables as they were. *)
Definition write {A} (tenantId : Z) (q : db → outcome (A * db)) : M A :=
  λ w, if outage (calls w) then (Throw StorageError, tick w)
       else match q (storage w tenantId) with
            | Ok (a, d') =>
                (Ok a, World (set_db (storage w) tenantId d')
                             (dispatched w) (S (calls w)) (cut w))
            | Throw e => (Throw e, tick w)
            end.
End Storage.

(** Storage that never rejects a call, and a world in which it never
    breaks off a graph write either. *)
Definition reliable : nat → bool := λ _, false.

Definition steady (w : world) : Prop := ∀ n, cut w n = None.

(** ** The object mapper

    The queries the service issues through Objection, on the tables of one
    tenant. *)

(** [Model.query().findById(id)]. *)
Definition findById (t : list record) (id : Z) : option record :=
  find (λ r, bool_decide (rid r = id)) t.

(** [where(column, value)] on one row, for a value that is defined. *)
Definition where_eq (column : string) (v : val) (r : record) : bool :=
  bool_decide (cols r !! column = Some v).

(** The rows of [items_entries] that belong to a document: the
    (reference_id, reference_type) pair of the [entries] relation. *)
Definition belongs (referenceId : Z) (referenceType : string)
    (r : record) : bool :=
  where_eq "reference_id" (VNum referenceId) r
  && where_eq "reference_type" (VStr referenceType) r.

(** [withGraphFetched('entries')] of a sale estimate. *)
Definition fetch_entries (d : db) (docId : Z) : list obj :=
  to_obj <$> filter (λ r, belongs docId "SaleEstimate" r) (ItemEntry d).

(** [withGraphFetched('customer')] of a sale estimate. *)
Definition fetch_customer (d : db) (r : record) : option obj :=
  match as_id (cols r !! "customer_id") with
  | Some c => to_obj <$> findById (Customer d) c
  | None => None
  end.

Definition fetch_graph (d : db) (r : record) : graph :=
  Graph (to_obj r) (fetch_entries d (rid r)).

(** The ids the children of a graph carry. *)
Definition child_ids (cs : list obj) : list Z :=
  omap (λ c, as_id (c !! "id")) cs.

(** A related row that the graph mentions is patched with the child's
    properties; the foreign key is the parent's id. *)
Definition patch_child (docId : Z) (cs : list obj) (r : record) : record :=
  match find (λ c, bool_decide (as_id (c !! "id") = Some (rid r))) cs with
  | Some c =>
      Row (rid r) (<["reference_id" := VNum docId]> (delete "id" c ∪ cols r))
  | None => r
  end.

(** The children without an id are inserted under fresh keys. *)
Fixpoint insert_children (docId next : Z) (cs : list obj) : list record :=
  match cs with
  | [] => []
  | c :: cs' =>
      match c !! "id" with
      | None =>
          Row next (<["reference_id" := VNum docId]> c)
          :: insert_children docId (next + 1) cs'
      | Some _ => insert_children docId next cs'
      end
  end.

(** Every child that carries an id names a row of the relation. *)
Definition children_known (rel : list record) (cs : list obj) : bool :=
  forallb (λ c, match c !! "id" with
                | None => true
                | Some v => match as_id (Some v) with
                            | Some i => bool_decide (i ∈ rid <$> rel)
                            | None => false
                            end
                end) cs.

(** ** The graph write

    [upsertGraphAndFetch] is not one statement. The object mapper reads
    the stored graph, plans the write, and issues the statements of the
    plan one after the other: the deletes, the inserts, the updates; at
    the end it reads the written graph back. The service opens no
    transaction around them. *)

(** [INSERT] of the root row, under the key the estimates table hands
    out. *)
Definition insert_root (docId : Z) (o : obj) (d : db) : db :=
  Db (SaleEstimate d ++ [Row docId o]) (ItemEntry d) (Item d) (Customer d)
     (docId + 1) (ItemEntry_seq d).

(** [DELETE] of the related rows that the graph no longer mentions. *)
Definition delete_unmentioned (docId : Z) (cs : list obj) (d : db) : db :=
  Db (SaleEstimate d)
     (filter (λ r, negb (belongs docId "SaleEstimate" r)
                   || bool_decide (rid r ∈ child_ids cs)) (ItemEntry d))
     (Item d) (Customer d)
     (SaleEstimate_seq d) (next_key (ItemEntry_seq d) (ItemEntry d)).

(** [INSERT] of the children without an id, under the next keys of the
    entries table. *)
Definition insert_entries (docId : Z) (cs : list obj) (d : db) : db :=
  let next := next_key (ItemEntry_seq d) (ItemEntry d) in
  let rows := insert_children docId next cs in
  Db (SaleEstimate d) (ItemEntry d ++ rows) (Item d) (Customer d)
     (SaleEstimate_seq d) (next + Z.of_nat (length rows)).

(** [UPDATE] of the root row. *)
Definition patch_root (row : record) (d : db) : db :=
  Db ((λ r, if bool_decide (rid r = rid row) then row else r)
        <$> SaleEstimate d)
     (ItemEntry d) (Item d) (Customer d)
     (SaleEstimate_seq d) (ItemEntry_seq d).

(** [UPDATE] of the related rows that the graph mentions. *)
Definition patch_entries (docId : Z) (cs : list obj) (d : db) : db :=
  Db (SaleEstimate d)
     ((λ r, if belongs docId "SaleEstimate" r
            then patch_child docId cs r else r) <$> ItemEntry d)
     (Item d) (Customer d)
     (SaleEstimate_seq d) (ItemEntry_seq d).

(** The plan of [upsertGraphAndFetch(graph)]: the key of the root and the
    statements to issue. A root without id is inserted under the next
    key, and its children after it (none of them may carry an id). A root
    with the id of a stored row is updated, and the [entries] relation
    with it: the related rows that the graph no longer mentions are
    deleted, the children without id inserted, the mentioned rows updated.
    The mapper refuses the graph ([None]) when the id of the root is not
    stored or the id of a child is not in the relation. *)
Definition upsert_plan (g : graph) (d : db) : option (Z * list (db → db)) :=
  match root g !! "id" with
  | None =>
      if forallb (λ c, bool_decide (c !! "id" = None)) (entries g) then
        let docId := next_key (SaleEstimate_seq d) (SaleEstimate d) in
        Some (docId, [insert_root docId (root g);
                      insert_entries docId (entries g)])
      else None
  | Some v =>
      match as_id (Some v) with
      | Some docId =>
          match findById (SaleEstimate d) docId with
          | Some old =>
              if children_known
                   (filter (λ r, belongs docId "SaleEstimate" r)
                           (ItemEntry d)) (entries g)
              then
                Some (docId,
                      [delete_unmentioned docId (entries g);
                       insert_entries docId (entries g);
                       patch_root (Row docId (delete "id" (root g)
                                              ∪ cols old));
                       patch_entries docId (entries g)])
              else None
          | None => None
          end
      | None => None
      end
  end.

Definition run_statements (ss : list (db → db)) (d : db) : db :=
  foldl (λ d s, s d) d ss.

(** [SaleEstimate.query().upsertGraphAndFetch(graph)] when the storage
    accepts every statement: the tables after the plan, and the written
    graph as it is read back. *)
Definition upsertGraphAndFetch (g : graph) (d : db) : outcome (graph * db) :=
  match upsert_plan g d with
  | Some (docId, ss) =>
      let d' := run_statements ss d in
      match findById (SaleEstimate d') docId with
      | Some row => Ok (fetch_graph d' row, d')
      | None => Throw StorageError
      end
  | None => Throw StorageError
  end.

Section GraphWrite.
Context (outage : nat → bool).

(** The awaited [upsertGraphAndFetch(graph)]: one storage call. When the
    storage breaks off after [k] statements of the plan, the call throws
    and these [k] statements stay applied (all of them, when it is the
    read-back that fails). *)
Definition write_graph (tenantId : Z) (g : graph) : M graph :=
  λ w, if outage (calls w) then (Throw StorageError, tick w)
       else
         let d := storage w tenantId in
         match upsert_plan g d, cut w (calls w) with
         | Some (_, ss), Some k =>
             (Throw StorageError,
              World (set_db (storage w) tenantId
                       (run_statements (take k ss) d))
                    (dispatched w) (S (calls w)) (cut w))
         | _, _ =>
             match upsertGraphAndFetch g d with
             | Ok (g', d') =>
                 (Ok g', World (set_db (storage w) tenantId d')
                               (dispatched w) (S (calls w)) (cut w))
             | Throw e => (Throw e, tick w)
             end
         end.

End GraphWrite.

(** ** Collaborators of the service whose source is not available *)

Section Collaborators.
Context (outage : nat → bool).

(** Modelled from the spec: [formatDateFields] (utils, source not
    available) normalises the named date fields of a DTO to the canonical
    date representation [formatDate] and leaves every other property as
    it is. *)
Definition formatDateFields (formatDate : val → val) (dto : graph)
    (fields : list string) : graph :=
  Graph (foldr (λ f o, match o !! f with
                       | Some v => <[f := formatDate v]> o
                       | None => o
                       end) (root dto) fields)
        (entries dto).

(** Modelled from the spec: [CustomersService.getCustomer] (source not
    available) retrieves the counterparty or fails with the
    customer-not-found error. *)
Definition getCustomer (tenantId : Z) (customerId : option val) : M obj :=
  await found := read outage tenantId (λ d,
    match as_id customerId with
    | Some c => findById (Customer d) c
    | None => None
    end) in
  match found with
  | Some c => ret (to_obj c)
  | None => throw (ServiceError ERRORS.CUSTOMER_NOT_FOUND [])
  end.

(** The item ids the entries of a DTO reference. *)
Definition items_ids (itemEntries : list obj) : list Z :=
  omap (λ e, as_id (e !! "item_id")) itemEntries.

(** Modelled from the spec: [ItemsEntriesService.validateItemsIdsExistance]
    (source not available) checks that every entry's item id exists and fails
    with the items-not-found error listing the missing ids. *)
Definition validateItemsIdsExistance (tenantId : Z)
    (itemEntries : list obj) : M unit :=
  let itemsIds := items_ids itemEntries in
  await foundItems := read outage tenantId (λ d,
    filter (λ r, rid r ∈ itemsIds) (Item d)) in
  let notFoundItemsIds := filter (λ i, i ∉ rid <$> foundItems) itemsIds in
  match notFoundItemsIds with
  | [] => ret tt
  | _ => throw (ServiceError ERRORS.ITEMS_IDS_NOT_EXISTS notFoundItemsIds)
  end.

(** Modelled from the spec:
    [ItemsEntriesService.validateNonSellableEntriesItems] (source not available)
    checks that every entry's item is eligible for a sales document and
    fails with the non-eligible-item error. *)
Definition validateNonSellableEntriesItems (tenantId : Z)
    (itemEntries : list obj) : M unit :=
  let itemsIds := items_ids itemEntries in
  await nonSellable := read outage tenantId (λ d,
    filter (λ r, rid r ∈ itemsIds ∧ cols r !! "sellable" ≠ Some (VBool true))
           (Item d)) in
  match nonSellable with
  | [] => ret tt
  | _ => throw (ServiceError ERRORS.NOT_SELLABLE_ITEMS (rid <$> nonSellable))
  end.

(** Modelled from the spec:
    [ItemsEntriesService.validateEntriesIdsExistance] (source not available)
    checks the entry ids a DTO claims to update against the entries stored
    under the given (reference id, reference type) pair and fails when one
    of them is not among these. *)
Definition validateEntriesIdsExistance (tenantId referenceId : Z)
    (referenceType : string) (entriesDTO : list obj) : M unit :=
  let entriesIds := child_ids entriesDTO in
  await storedEntries := read outage tenantId (λ d,
    filter (λ r, belongs referenceId referenceType r) (ItemEntry d)) in
  let notFoundEntriesIds :=
    filter (λ i, i ∉ rid <$> storedEntries) entriesIds in
  match notFoundEntriesIds with
  | [] => ret tt
  | _ => throw (ServiceError ERRORS.ENTRIES_IDS_NOT_FOUND notFoundEntriesIds)
  end.

(** Modelled from the spec: the [pagination] query method (source not available)
    takes a zero-indexed page and a page size, returns that slice of the
    ordered result together with the pagination metadata, whose page is
    1-indexed again. Negative arguments count as zero. *)
Record pagination_meta := PaginationMeta {
  total : Z;
  page : Z;
  pageSize : Z;
}.

Definition pagination {A} (page0 pageSize : Z) (rows : list A)
    : list A * pagination_meta :=
  (take (Z.to_nat pageSize) (drop (Z.to_nat (page0 * pageSize)) rows),
   PaginationMeta (Z.of_nat (length rows)) (page0 + 1) pageSize).

End Collaborators.

(** ** SaleEstimateService *)

(** [IEstimatesFilter]: the declarative conditions and the page request. *)
Record estimates_filter := EstimatesFilter {
  conditions : obj;
  filter_page : Z;
  filter_pageSize : Z;
}.

Record estimates_list := EstimatesList {
  salesEstimates : list (graph * option obj);
  list_pagination : pagination_meta;
  filterMeta : obj;
}.

Section SaleEstimateService.
Context (outage : nat → bool).
(** [ItemEntry.calcAmount] and the canonical date format, both declared
    elsewhere. *)
Context (calcAmount : obj → Z) (formatDate : val → val).
(** [DynamicListingService] (source not available): the query its
    dynamic filter builds over the tenant's estimates, and its response
    meta. *)
Context (buildQuery : obj → list record → list record).
Context (getResponseMeta : obj → obj).

(** Retrieve sale estimate or throw service error. *)
Definition getSaleEstimateOrThrowError (tenantId saleEstimateId : Z)
    : M record :=
  await foundSaleEstimate := read outage tenantId (λ d,
    findById (SaleEstimate d) saleEstimateId) in
  match foundSaleEstimate with
  | None => throw (ServiceError ERRORS.SALE_ESTIMATE_NOT_FOUND [])
  | Some r => ret r
  end.

(** The row [validateEstimateNumberExistance] looks for. *)
Definition number_taken (estimateNumber : val)
    (notEstimateId : option Z) (r : record) : bool :=
  where_eq "estimate_number" estimateNumber r
  && (if truthy_num notEstimateId
      then negb (bool_decide (Some (rid r) = notEstimateId))
      else true).

(** Validate the estimate number unique on the storage. With an
    [undefined] number, [findOne('estimate_number', undefined)] makes the
    query builder throw while it compiles the query: the awaited query
    rejects and no storage call is made. *)
Definition validateEstimateNumberExistance (tenantId : Z)
    (estimateNumber : option val) (notEstimateId : option Z) : M unit :=
  match estimateNumber with
  | None => throw UndefinedBinding
  | Some number =>
      await foundSaleEstimate := read outage tenantId (λ d,
        find (number_taken number notEstimateId) (SaleEstimate d)) in
      match foundSaleEstimate with
      | Some _ =>
          throw (ServiceError ERRORS.SALE_ESTIMATE_NUMBER_EXISTANCE [])
      | None => ret tt
      end
  end.

(** [{ amount, ...formatDateFields(estimateDTO, [...]) }]. *)
Definition estimateObj (estimateDTO : graph) : graph :=
  let amount := sumBy (entries estimateDTO) calcAmount in
  let formatted :=
    formatDateFields formatDate estimateDTO
      ["estimate_date"; "expiration_date"] in
  Graph (spread {["amount" := VNum amount]} (root formatted))
        (entries formatted).

(** The graph [createEstimate] hands to [upsertGraphAndFetch]. *)
Definition create_graph (estimateDTO : graph) : graph :=
  let o := estimateObj estimateDTO in
  Graph (root o)
        ((λ entry, spread {["reference_type" := VStr "SaleEstimate"]}
                          (omit entry ["total"; "amount"; "id"]))
           <$> entries o).

(** The graph [editEstimate] hands to [upsertGraphAndFetch]. *)
Definition edit_graph (estimateId : Z) (estimateDTO : graph) : graph :=
  let o := estimateObj estimateDTO in
  Graph (spread {["id" := VNum estimateId]} (root o))
        ((λ entry, spread {["reference_type" := VStr "SaleEstimate"]}
                          (omit entry ["total"; "amount"]))
           <$> entries o).

(** Creates a new estimate with associated entries. *)
Definition createEstimate (tenantId : Z) (estimateDTO : graph) : M graph :=
  await_ validateEstimateNumberExistance tenantId
           (root estimateDTO !! "estimate_number") None in
  await_ getCustomer outage tenantId (root estimateDTO !! "customer_id") in
  await_ validateItemsIdsExistance outage tenantId (entries estimateDTO) in
  await_ validateNonSellableEntriesItems outage tenantId
           (entries estimateDTO) in
  await saleEstimate := write_graph outage tenantId
           (create_graph estimateDTO) in
  await_ dispatch onCreated None in
  ret saleEstimate.

(** Edit details of the given estimate with associated entries. *)
Definition editEstimate (tenantId estimateId : Z) (estimateDTO : graph)
    : M graph :=
  await oldSaleEstimate :=
    getSaleEstimateOrThrowError tenantId estimateId in
  await_ validateEstimateNumberExistance tenantId
           (root estimateDTO !! "estimate_number") (Some estimateId) in
  await_ getCustomer outage tenantId (root estimateDTO !! "customer_id") in
  await_ validateEntriesIdsExistance outage tenantId estimateId
           "SaleEstiamte" (entries estimateDTO) in
  await_ validateItemsIdsExistance outage tenantId (entries estimateDTO) in
  await_ validateNonSellableEntriesItems outage tenantId
           (entries estimateDTO) in
  await saleEstimate := write_graph outage tenantId
           (edit_graph estimateId estimateDTO) in
  await_ dispatch onEdited
           (Some [("tenantId", PNum tenantId);
                  ("estimateId", PNum estimateId);
                  ("saleEstimate", PGraph saleEstimate);
                  ("oldSaleEstimate", PRow (to_obj oldSaleEstimate))]) in
  ret saleEstimate.

(** [ItemEntry.query().where('reference_id', estimateId)
    .where('reference_type', 'SaleEstimate').delete()]. *)
Definition entries_deleted (estimateId : Z) (d : db) : db :=
  Db (SaleEstimate d)
     (filter (λ r, negb (belongs estimateId "SaleEstimate" r)) (ItemEntry d))
     (Item d) (Customer d)
     (SaleEstimate_seq d) (next_key (ItemEntry_seq d) (ItemEntry d)).

(** [SaleEstimate.query().where('id', estimateId).delete()]. *)
Definition document_deleted (estimateId : Z) (d : db) : db :=
  Db (filter (λ r, rid r ≠ estimateId) (SaleEstimate d))
     (ItemEntry d) (Item d) (Customer d)
     (next_key (SaleEstimate_seq d) (SaleEstimate d)) (ItemEntry_seq d).

(** Deletes the given estimate id with associated entries. *)
Definition deleteEstimate (tenantId estimateId : Z) : M unit :=
  await oldSaleEstimate :=
    getSaleEstimateOrThrowError tenantId estimateId in
  await_ write outage tenantId (λ d,
    Ok (tt, entries_deleted estimateId d)) in
  await_ write outage tenantId (λ d,
    Ok (tt, document_deleted estimateId d)) in
  dispatch onDeleted
    (Some [("tenantId", PNum tenantId);
           ("saleEstimateId", PNum estimateId);
           ("oldSaleEstimate", PRow (to_obj oldSaleEstimate))]).

(** Retrieve the estimate details with associated entries. *)
Definition getEstimate (tenantId estimateId : Z)
    : M (graph * option obj) :=
  await estimate := read outage tenantId (λ d,
    (λ r, (fetch_graph d r, fetch_customer d r))
      <$> findById (SaleEstimate d) estimateId) in
  match estimate with
  | None => throw (ServiceError ERRORS.SALE_ESTIMATE_NOT_FOUND [])
  | Some e => ret e
  end.

(** The ordered rows the list query ranges over. *)
Definition listed (d : db) (conds : obj) : list (graph * option obj) :=
  (λ r, (fetch_graph d r, fetch_customer d r))
    <$> buildQuery conds (SaleEstimate d).

(** Retrieves estimates filterable and paginated list. *)
Definition estimatesList (tenantId : Z) (estimatesFilter : estimates_filter)
    : M estimates_list :=
  await ' (results, pagination) := read outage tenantId (λ d,
    pagination (filter_page estimatesFilter - 1)
               (filter_pageSize estimatesFilter)
               (listed d (conditions estimatesFilter))) in
  ret (EstimatesList results pagination
         (getResponseMeta (conditions estimatesFilter))).

End SaleEstimateService.

(** ** Bill actions (Redux)

    [deleteBill] issues the HTTP request and settles the promise it
    returns from the [then] and [catch] callbacks of the request. *)

Module Bills.

(** The values an [errors] property may hold. *)
Inductive js :=
  | JUndefined
  | JNull
  | JBool (b : bool)
  | JNum (n : Z)
  | JStr (s : string)
  | JArray (xs : list string).

(** [response.data]: the body, whose [errors] property reads as
    [JUndefined] when the body has none. *)
Record body := Body { errors : js }.

(** An HTTP response; [data] is [None] when the response has no body
    object ([undefined] or [null]). *)
Record response := Response { status : Z; data : option body }.

(** The error a rejected request carries; [error.response] is [None]
    when no response was received (network failure, timeout). *)
Record request_error := RequestError { error_response : option response }.

(** How [ApiService.delete] settles. *)
Inductive request :=
  | Fulfilled (r : response)
  | Failed (e : request_error).

Inductive action :=
  | BILL_DELETE (id : Z).

(** The state of the promise [deleteBill] returns once the request has
    settled; [Pending] when neither [resolve] nor [reject] was called. *)
Inductive promise :=
  | Resolved (r : response)
  | Rejected (reason : js)
  | Pending.

Definition js_truthy (v : js) : bool :=
  match v with
  | JUndefined | JNull => false
  | JBool b => b
  | JNum n => negb (n =? 0)
  | JStr s => negb (String.eqb s "")
  | JArray _ => true
  end.

(** [a || b]. *)
Definition js_or (a b : js) : js := if js_truthy a then a else b.

(** [error.response.data.errors]; reading a property of [undefined]
    throws a TypeError, here [None]. *)
Definition response_data_errors (error : request_error) : option js :=
  match error_response error with
  | Some r => match data r with
              | Some d => Some (errors d)
              | None => None
              end
  | None => None
  end.

(** The action creator, run against the way the request settles: the
    actions dispatched to the store and the state of the returned
    promise. *)
Definition deleteBill (id : Z) (req : request) : list action * promise :=
  match req with
  | Fulfilled response => ([BILL_DELETE id], Resolved response)
  | Failed error =>
      match response_data_errors error with
      | Some errs => ([], Rejected (js_or errs (JArray [])))
      | None => ([], Pending)
      end
  end.

End Bills.

(** ** The bill actions that read

    [fetchBillsTable] and [fetchBill] of the same file, run against the
    way their request settles. ([submitBill] and [editBill] only hand
    the promise of their request on.) *)

Module BillActions.

(** [response.data.bills] of the bills listing. *)
Record bills_page := BillsPage { results : list obj; pagination : obj }.

(** [response.data] of the bills listing; [bills] is [None] when the body
    has no such property. *)
Record table_body := TableBody {
  bills : option bills_page;
  customViewId : Bills.js;
}.

(** The response to the listing; [None] when it has no body object. *)
Record table_response := TableResponse { table_data : option table_body }.

(** [response.data] of one bill. *)
Record bill_body := BillBody { bill : option obj }.

Record bill_response := BillResponse { bill_data : option bill_body }.

(** How a request settles. *)
Inductive request (R : Type) :=
  | Fulfilled (r : R)
  | Failed (e : Bills.request_error).
Arguments Fulfilled {R} r.
Arguments Failed {R} e.

Inductive action :=
  | BILLS_TABLE_LOADING (loading : bool)
  | BILLS_PAGE_SET (bills : list obj) (pagination : obj)
      (customViewId : Bills.js)
  | BILLS_ITEMS_SET (bills : list obj)
  | BILLS_PAGINATION_SET (pagination : obj) (customViewId : Bills.js)
  | BILL_SET (id : Z) (bill : option obj).

(** What a callback hands to [reject]: the error of the request, a
    TypeError thrown by the [then] callback, or a value. *)
Inductive reason :=
  | RequestFailed (e : Bills.request_error)
  | ThrownTypeError
  | Value (v : Bills.js).

(** The promise an action creator returns, once its request has settled. *)
Inductive promise (R : Type) :=
  | Resolved (r : R)
  | Rejected (why : reason)
  | Pending.
Arguments Resolved {R} r.
Arguments Rejected {R} why.
Arguments Pending {R}.

(** [{ ...pageQuery, ...query }] with [query = {}] by default; spreading
    [undefined] adds nothing. *)
Definition table_params (query pageQuery : option obj) : obj :=
  spread (default ∅ pageQuery) (default ∅ query).

(** The [then] callback of [fetchBillsTable]: the actions it dispatches,
    or [None] when reading [response.data.bills.results] throws. *)
Definition table_loaded (response : table_response) : option (list action) :=
  match table_data response with
  | Some data =>
      match bills data with
      | Some page =>
          Some [BILLS_PAGE_SET (results page) (pagination page)
                  (Bills.js_or (customViewId data) (Bills.JNum (-1)));
                BILLS_ITEMS_SET (results page);
                BILLS_PAGINATION_SET (pagination page)
                  (Bills.js_or (customViewId data) (Bills.JNum (-1)));
                BILLS_TABLE_LOADING false]
      | None => None
      end
  | None => None
  end.

(** [fetchBillsTable({ query })(dispatch, getState)]: the params of the
    request, the actions dispatched, and the promise returned. An
    exception of the [then] callback reaches the [catch] callback, which
    rejects with it. *)
Definition fetchBillsTable (query pageQuery : option obj)
    (req : request table_response)
    : obj * list action * promise table_response :=
  let params := table_params query pageQuery in
  match req with
  | Fulfilled response =>
      match table_loaded response with
      | Some actions =>
          (params, BILLS_TABLE_LOADING true :: actions, Resolved response)
      | None =>
          (params, [BILLS_TABLE_LOADING true], Rejected ThrownTypeError)
      end
  | Failed error =>
      (params, [BILLS_TABLE_LOADING true], Rejected (RequestFailed error))
  end.

(** The [catch] callback of [fetchBill]: [const { response } = error;
    const { data } = response; reject(data?.errors)]. Destructuring
    [undefined] throws ([None]); [data?.errors] of a missing body is
    [undefined]. *)
Definition fetchBill_rejection (error_response : option Bills.response)
    : option Bills.js :=
  match error_response with
  | Some response =>
      Some (match Bills.data response with
            | Some data => Bills.errors data
            | None => Bills.JUndefined
            end)
  | None => None
  end.

(** [fetchBill({ id })(dispatch)]. When [const { bill } = response.data]
    throws, the [catch] callback gets a TypeError, which has no
    [response]. *)
Definition fetchBill (id : Z) (req : request bill_response)
    : list action * promise bill_response :=
  match req with
  | Fulfilled response =>
      match bill_data response with
      | Some data => ([BILL_SET id (bill data)], Resolved response)
      | None =>
          match fetchBill_rejection None with
          | Some v => ([], Rejected (Value v))
          | None => ([], Pending)
          end
      end
  | Failed error =>
      match fetchBill_rejection (Bills.error_response error) with
      | Some v => ([], Rejected (Value v))
      | None => ([], Pending)
      end
  end.

End BillActions.

(** ** Sample data *)

(** A sample amount computation: quantity times rate. *)
Definition quantity_rate (e : obj) : Z :=
  match e !! "quantity", e !! "rate" with
  | Some (VNum q), Some (VNum r) => q * r
  | _, _ => 0
  end.

(** A tenant with two items (7 sellable, 8 not) and customer 3, and no
    estimate so far: the first keys are 1. *)
Definition shop : db :=
  Db [] []
     [Row 7 {["sellable" := VBool true]}; Row 8 {["sellable" := VBool false]}]
     [Row 3 {["display_name" := VStr "Ada"]}]
     1 1.

Definition fresh_world : world := World (λ _, shop) [] 0 (λ _, None).

(** Two units of item 7 at 50; the client also sends an id and a total. *)
Definition two_widgets : obj :=
  {["item_id" := VNum 7; "quantity" := VNum 2; "rate" := VNum 50;
    "id" := VNum 99; "total" := VNum 1]}.

Definition estimate_E1 : graph :=
  Graph {["estimate_number" := VStr "E1"; "customer_id" := VNum 3]}
        [two_widgets].

(** The same DTO with an [amount] of the client's own. *)
Definition estimate_E1_amount (a : Z) : graph :=
  Graph (<["amount" := VNum a]> (root estimate_E1)) (entries estimate_E1).

(** An edit DTO for it that claims the stored entry 1, and one without
    entries. *)
Definition edit_E1_entry_1 : graph :=
  Graph (root estimate_E1) [<["id" := VNum 1]> two_widgets].

Definition edit_E1_amount_bare (a : Z) : graph :=
  Graph (root (estimate_E1_amount a)) [].

(** The entry of [estimate_E1] sent with a reference type of the client's
    own, and a create DTO and an edit DTO (the entry without the id) that
    carry it. *)
Definition billed_widgets : obj :=
  <["reference_type" := VStr "Bill"]> two_widgets.

Definition estimate_E1_billed : graph :=
  Graph (root estimate_E1) [billed_widgets].

Definition edit_E1_billed : graph :=
  Graph (root estimate_E1) [delete "id" billed_widgets].

(** The world after estimate E1 was created for tenant 1. *)
Definition world_E1 : world :=
  snd (createEstimate reliable quantity_rate id 1 estimate_E1 fresh_world).

(** The world after a second estimate, E2, was created for tenant 1. *)
Definition estimate_E2 : graph :=
  Graph {["estimate_number" := VStr "E2"; "customer_id" := VNum 3]} [].

Definition world_E1_E2 : world :=
  snd (createEstimate reliable quantity_rate id 1 estimate_E2 world_E1).

(** An edit DTO that carries the id of document 2. *)
Definition edit_with_id_2 : graph :=
  Graph {["id" := VNum 2; "estimate_number" := VStr "E9";
          "customer_id" := VNum 3]} [].

(** A world in which the storage breaks off every graph write after its
    first [k] statements. *)
Definition breaking (k : nat) (w : world) : world :=
  World (storage w) (dispatched w) (calls w) (λ _, Some k).

(** An edit DTO for E1 with one new entry. *)
Definition edit_E1_new_entry : graph :=
  Graph (root estimate_E1) [{["item_id" := VNum 7]}].

(** What a run returned, if it returned. *)
Definition returned {A} (r : outcome A * world) : option A :=
  match fst r with
  | Ok a => Some a
  | Throw _ => None
  end.

(** What a run threw, if it threw. *)
Definition thrown {A} (r : outcome A * world) : option error :=
  match fst r with
  | Ok _ => None
  | Throw e => Some e
  end.

(** ** Notions used by the statements *)

(** A step that leaves the tables, the event log and the schedule of the
    storage as they are. *)
Definition frames {A} (m : M A) : Prop :=
  ∀ w r w', m w = (r, w') →
    storage w' = storage w ∧ dispatched w' = dispatched w ∧ cut w' = cut w.

(** What the four gates of [createEstimate] check on the tables of the
    tenant: the DTO has an estimate number and no stored document carries
    it; *)
Definition number_free (d : db) (dto : graph) : Prop :=
  ∃ n, root dto !! "estimate_number" = Some n
       ∧ find (number_taken n None) (SaleEstimate d) = None.

(** its customer is stored; *)
Definition customer_known (d : db) (dto : graph) : Prop :=
  is_Some (as_id (root dto !! "customer_id") ≫= findById (Customer d)).

(** the item ids of the entries that the tenant's [Item] table lacks, in
    the order of the entries; *)
Definition missing_items (d : db) (itemEntries : list obj) : list Z :=
  filter (λ i, i ∉ rid <$> Item d) (items_ids itemEntries).

(** the stored items of the entries that are not marked sellable, in the
    order of the table. *)
Definition non_sellable_items (d : db) (itemEntries : list obj) : list Z :=
  rid <$> filter (λ r, rid r ∈ items_ids itemEntries
                       ∧ cols r !! "sellable" ≠ Some (VBool true)) (Item d).

(** All four gates pass. *)
Definition gates_passed (d : db) (dto : graph) : Prop :=
  number_free d dto
  ∧ customer_known d dto
  ∧ missing_items d (entries dto) = []
  ∧ non_sellable_items d (entries dto) = [].

(** The tables a graph write may leave in tenant storage [d] when it is
    broken off: those after some first statements of its plan. *)
Definition broken_off (g : graph) (d d' : db) : Prop :=
  ∃ docId ss k, upsert_plan g d = Some (docId, ss)
                ∧ d' = run_statements (take k ss) d.

(** The sum of a list of integers, and the lists all of whose partial
    sums, from the left, are integers that the doubles represent
    exactly. *)
Definition sum_Z (zs : list Z) : Z := foldr Z.add 0 zs.

Definition exact_sums (zs : list Z) : Prop :=
  ∀ k, Z.abs (sum_Z (take k zs)) ≤ 2 ^ 53.

(** The errors a step may throw all satisfy [P]. *)
Definition throws_only {A} (P : error → Prop) (m : M A) : Prop :=
  ∀ w e w', m w = (Throw e, w') → P e.

(** The duplicate-number error, and any error but it. *)
Definition duplicate_number : error :=
  ServiceError ERRORS.SALE_ESTIMATE_NUMBER_EXISTANCE [].

Definition not_duplicate (e : error) : Prop := e ≠ duplicate_number.

(** * Properties *)

(** ** Objects *)

Lemma lookup_spread (base over : obj) (k : string) :
  spread base over !! k
  = match over !! k with Some v => Some v | None => base !! k end.
Proof.
  unfold spread. rewrite lookup_union.
  destruct (over !! k), (base !! k); reflexivity.
Qed.

Lemma lookup_omit (o : obj) (keys : list string) (k : string) :
  omit o keys !! k = if decide (k ∈ keys) then None else o !! k.
Proof.
  unfold omit. induction keys as [|a keys IH]; cbn [foldr].
  - rewrite decide_False by set_solver. reflexivity.
  - rewrite lookup_delete, IH.
    destruct (decide (a = k)) as [->|Hne].
    + rewrite decide_True by set_solver. reflexivity.
    + destruct (decide (k ∈ keys)) as [Hin|Hin].
      * rewrite decide_True by set_solver. reflexivity.
      * rewrite decide_False by set_solver. reflexivity.
Qed.

Lemma lookup_formatDateFields formatDate dto fields k :
  k ∉ fields →
  root (formatDateFields formatDate dto fields) !! k = root dto !! k.
Proof.
  unfold formatDateFields; simpl.
  induction fields as [|f fields IH]; simpl; intros Hk; [reflexivity|].
  apply not_elem_of_cons in Hk as [Hne Hk].
  case_match; rewrite ?lookup_insert_ne by congruence; auto.
Qed.

Section EstimateObject.
Context (calcAmount : obj → Z) (formatDate : val → val).

Lemma lookup_estimateObj dto k :
  k ∉ ["estimate_date"; "expiration_date"] →
  root (estimateObj calcAmount formatDate dto) !! k
  = match root dto !! k with
    | Some v => Some v
    | None => if decide (k = "amount")
              then Some (VNum (sumBy (entries dto) calcAmount)) else None
    end.
Proof.
  intros Hk. unfold estimateObj; simpl.
  rewrite lookup_spread.
  pose proof (lookup_formatDateFields formatDate dto _ k Hk) as E.
  unfold formatDateFields in E; simpl in E. rewrite E.
  destruct (root dto !! k); [reflexivity|].
  case_decide; subst.
  - apply lookup_singleton_eq.
  - apply lookup_singleton_ne; congruence.
Qed.

(** A DTO that carries no [amount] gets the computed one. *)
Lemma estimateObj_amount_computed dto :
  root dto !! "amount" = None →
  root (estimateObj calcAmount formatDate dto) !! "amount"
  = Some (VNum (sumBy (entries dto) calcAmount)).
Proof.
  intros H. rewrite lookup_estimateObj, H by set_solver. reflexivity.
Qed.

(** A DTO that carries an [amount] keeps it: the spread comes last. *)
Lemma estimateObj_amount_supplied dto v :
  root dto !! "amount" = Some v →
  root (estimateObj calcAmount formatDate dto) !! "amount" = Some v.
Proof.
  intros H. rewrite lookup_estimateObj, H by set_solver. reflexivity.
Qed.

End EstimateObject.

(** ** The amount of a written document *)

Section Amount.
Context (calcAmount : obj → Z) (formatDate : val → val).

Lemma create_returns_client_amount (a : Z) :
  (returned (createEstimate reliable calcAmount formatDate 1
               (estimate_E1_amount a) fresh_world)
     ≫= λ g, root g !! "amount") = Some (VNum a).
Proof. vm_compute. reflexivity. Qed.

(** C1, at the input where it fails. For every [a], the DTO
    [estimate_E1_amount a] is valid for tenant 1 (free number, existing
    customer, existing sellable item) and carries an [amount] of [a] next
    to one entry. Whatever [ItemEntry.calcAmount] computes for that entry,
    [createEstimate] returns and stores a document whose amount is the
    client's [a], and so does [editEstimate] of the stored document; the
    sums of the computed entry amounts are [calcAmount two_widgets] and,
    for the edit without entries, 0. *)
Theorem client_amount_is_persisted (a : Z) :
  (returned (createEstimate reliable calcAmount formatDate 1
               (estimate_E1_amount a) fresh_world)
     ≫= λ g, root g !! "amount") = Some (VNum a)
  ∧ (findById
       (SaleEstimate
          (storage (snd (createEstimate reliable calcAmount formatDate 1
                           (estimate_E1_amount a) fresh_world)) 1)) 1
     ≫= λ r, cols r !! "amount") = Some (VNum a)
  ∧ sumBy (entries (estimate_E1_amount a)) calcAmount
    = calcAmount two_widgets
  ∧ (returned (editEstimate reliable calcAmount formatDate 1 1
                 (edit_E1_amount_bare a) world_E1)
     ≫= λ g, root g !! "amount") = Some (VNum a)
  ∧ sumBy (entries (edit_E1_amount_bare a)) calcAmount = 0.
Proof.
  repeat split; vm_compute; reflexivity.
Qed.

(** Hence some valid DTO is stored with an amount that is not the sum of
    its computed entry amounts. *)
Corollary persisted_amount_not_the_sum :
  ∃ dto,
    (returned (createEstimate reliable calcAmount formatDate 1 dto
                 fresh_world)
       ≫= λ g, root g !! "amount")
    ≠ Some (VNum (sumBy (entries dto) calcAmount)).
Proof.
  exists (estimate_E1_amount (calcAmount two_widgets + 1)).
  rewrite create_returns_client_amount.
  change (sumBy (entries (estimate_E1_amount (calcAmount two_widgets + 1)))
            calcAmount) with (calcAmount two_widgets).
  intros [=]. lia.
Qed.

(** Without an [amount] of the client's own in the DTO, the graph handed
    to the object mapper carries the sum of the computed entry amounts,
    on create and on edit. *)
Lemma written_amount_computed estimateId dto :
  root dto !! "amount" = None →
  root (create_graph calcAmount formatDate dto) !! "amount"
  = Some (VNum (sumBy (entries dto) calcAmount))
  ∧ root (edit_graph calcAmount formatDate estimateId dto) !! "amount"
    = Some (VNum (sumBy (entries dto) calcAmount)).
Proof.
  intros H. split.
  - apply estimateObj_amount_computed, H.
  - change (root (edit_graph calcAmount formatDate estimateId dto))
      with (spread {["id" := VNum estimateId]}
                   (root (estimateObj calcAmount formatDate dto))).
    rewrite lookup_spread, estimateObj_amount_computed by exact H.
    reflexivity.
Qed.

End Amount.

(** ** What is written for the entries *)

Section Entries.
Context (calcAmount : obj → Z) (formatDate : val → val).

(** The entry [createEstimate] writes for an entry of the DTO. *)
Lemma create_graph_entry dto i :
  entries (create_graph calcAmount formatDate dto) !! i
  = (λ entry, spread {["reference_type" := VStr "SaleEstimate"]}
                     (omit entry ["total"; "amount"; "id"]))
      <$> entries dto !! i.
Proof. unfold create_graph; simpl. apply list_lookup_fmap. Qed.

(** The entry [editEstimate] writes for an entry of the DTO. *)
Lemma edit_graph_entry estimateId dto i :
  entries (edit_graph calcAmount formatDate estimateId dto) !! i
  = (λ entry, spread {["reference_type" := VStr "SaleEstimate"]}
                     (omit entry ["total"; "amount"]))
      <$> entries dto !! i.
Proof. unfold edit_graph; simpl. apply list_lookup_fmap. Qed.

(** What the written entry holds under each key: nothing under the
    omitted keys but the stamp, and otherwise what the client sent, in
    front of the stamp. *)
Lemma lookup_written_entry (e : obj) (keys : list string) (k : string) :
  spread {["reference_type" := VStr "SaleEstimate"]} (omit e keys) !! k
  = match (if decide (k ∈ keys) then None else e !! k) with
    | Some v => Some v
    | None => if decide (k = "reference_type")
              then Some (VStr "SaleEstimate") else None
    end.
Proof.
  rewrite lookup_spread, lookup_omit.
  destruct (if decide (k ∈ keys) then None else e !! k); [reflexivity|].
  destruct (decide (k = "reference_type")) as [->|Hne].
  - apply lookup_singleton_eq.
  - apply lookup_singleton_ne. congruence.
Qed.

(** The entries handed to the graph write. For every entry [e] of a DTO,
    the entry written in its place has no [total] and no [amount], on
    create and on edit; on create it has no [id] either, on edit it keeps
    the [id] the client sent, which names the stored row to update. Its
    reference type is the client's when [e] has one, and the stamp
    'SaleEstimate' only when [e] has none. Every other property is
    written as sent. *)
Lemma written_entry_fields estimateId dto i e :
  entries dto !! i = Some e →
  ∃ c u,
    entries (create_graph calcAmount formatDate dto) !! i = Some c
    ∧ entries (edit_graph calcAmount formatDate estimateId dto) !! i = Some u
    ∧ c !! "total" = None ∧ c !! "amount" = None ∧ c !! "id" = None
    ∧ u !! "total" = None ∧ u !! "amount" = None ∧ u !! "id" = e !! "id"
    ∧ c !! "reference_type"
      = Some (default (VStr "SaleEstimate") (e !! "reference_type"))
    ∧ u !! "reference_type"
      = Some (default (VStr "SaleEstimate") (e !! "reference_type"))
    ∧ (∀ k, k ∉ ["total"; "amount"; "id"; "reference_type"] →
            c !! k = e !! k ∧ u !! k = e !! k).
Proof.
  intros He.
  exists (spread {["reference_type" := VStr "SaleEstimate"]}
                 (omit e ["total"; "amount"; "id"])),
         (spread {["reference_type" := VStr "SaleEstimate"]}
                 (omit e ["total"; "amount"])).
  split; [rewrite create_graph_entry, He; reflexivity|].
  split; [rewrite edit_graph_entry, He; reflexivity|].
  repeat split; rewrite ?lookup_written_entry; try reflexivity.
  - rewrite decide_False by set_solver.
    destruct (e !! "id"); reflexivity.
  - rewrite decide_False by set_solver.
    destruct (e !! "reference_type"); reflexivity.
  - rewrite decide_False by set_solver.
    destruct (e !! "reference_type"); reflexivity.
  - rewrite decide_False by set_solver.
    rewrite (decide_False (P := k = "reference_type")) by set_solver.
    destruct (e !! k); reflexivity.
  - rewrite decide_False by set_solver.
    rewrite (decide_False (P := k = "reference_type")) by set_solver.
    destruct (e !! k); reflexivity.
Qed.

(** C6, at the input where it fails. The DTO [estimate_E1_billed] is valid
    for tenant 1 and its one entry carries, next to the id 99 and a total,
    the reference type 'Bill'. [createEstimate] returns, and the one entry
    row it has persisted has a key of the storage's own and no total, and
    refers to the new document 1, but its reference type is the client's
    'Bill', not 'SaleEstimate'. [editEstimate] of the stored document with
    the same entry (sent without id) persists it the same way. *)
Theorem client_reference_type_is_persisted :
  entries estimate_E1_billed
  = [<["reference_type" := VStr "Bill"]> two_widgets]
  ∧ thrown (createEstimate reliable calcAmount formatDate 1
              estimate_E1_billed fresh_world) = None
  ∧ (λ r, (rid r, cols r !! "reference_id", cols r !! "reference_type",
           cols r !! "total"))
      <$> ItemEntry
            (storage (snd (createEstimate reliable calcAmount formatDate 1
                             estimate_E1_billed fresh_world)) 1)
    = [(1, Some (VNum 1), Some (VStr "Bill"), None)]
  ∧ thrown (editEstimate reliable calcAmount formatDate 1 1 edit_E1_billed
              world_E1) = None
  ∧ (λ r, (cols r !! "reference_id", cols r !! "reference_type",
           cols r !! "total"))
      <$> ItemEntry
            (storage (snd (editEstimate reliable calcAmount formatDate 1 1
                             edit_E1_billed world_E1)) 1)
    = [(Some (VNum 1), Some (VStr "Bill"), None)].
Proof. repeat split; vm_compute; reflexivity. Qed.

End Entries.

(** ** Running the service monad *)

Lemma bind_inv {A B} (m : M A) (k : A → M B) w r w' :
  bind m k w = (r, w') →
  (∃ a w1, m w = (Ok a, w1) ∧ k a w1 = (r, w'))
  ∨ (∃ e, m w = (Throw e, w') ∧ r = Throw e).
Proof.
  unfold bind. destruct (m w) as [[a|e] w1]; intros H.
  - left. eauto.
  - right. inversion H; subst. eauto.
Qed.

Lemma bind_ok {A B} (m : M A) (k : A → M B) w a w1 :
  m w = (Ok a, w1) → bind m k w = k a w1.
Proof. unfold bind. intros ->. reflexivity. Qed.

Lemma bind_throw {A B} (m : M A) (k : A → M B) w e w1 :
  m w = (Throw e, w1) → bind m k w = (Throw e, w1).
Proof. unfold bind. intros ->. reflexivity. Qed.

Lemma frames_ret {A} (a : A) : frames (ret a).
Proof. intros w r w' [= <- <-]. auto. Qed.

Lemma frames_throw {A} (e : error) : frames (@throw A e).
Proof. intros w r w' [= <- <-]. auto. Qed.

Lemma frames_read {A} outage tenantId (q : db → A) :
  frames (read outage tenantId q).
Proof.
  intros w r w'. unfold read.
  destruct (outage (calls w)); intros [= <- <-]; auto.
Qed.

Lemma frames_bind {A B} (m : M A) (k : A → M B) :
  frames m → (∀ a, frames (k a)) → frames (bind m k).
Proof.
  intros Hm Hk w r w' H.
  apply bind_inv in H as [(a & w1 & H1 & H2)|(e & H1 & ->)].
  - destruct (Hm _ _ _ H1) as (E1 & E2 & E3),
             (Hk _ _ _ _ H2) as (E4 & E5 & E6).
    repeat split; congruence.
  - eapply Hm, H1.
Qed.

Create HintDb frames.
#[local] Hint Resolve frames_ret frames_throw frames_read : frames.

Ltac frames_validator :=
  apply frames_bind; [auto with frames|];
  intros ?; repeat case_match; auto with frames.

Lemma frames_getCustomer outage tenantId customerId :
  frames (getCustomer outage tenantId customerId).
Proof. unfold getCustomer. frames_validator. Qed.

Lemma frames_validateItemsIdsExistance outage tenantId es :
  frames (validateItemsIdsExistance outage tenantId es).
Proof. unfold validateItemsIdsExistance. frames_validator. Qed.

Lemma frames_validateNonSellableEntriesItems outage tenantId es :
  frames (validateNonSellableEntriesItems outage tenantId es).
Proof. unfold validateNonSellableEntriesItems. frames_validator. Qed.

Lemma frames_validateEntriesIdsExistance outage tenantId i ty es :
  frames (validateEntriesIdsExistance outage tenantId i ty es).
Proof. unfold validateEntriesIdsExistance. frames_validator. Qed.

Lemma frames_validateEstimateNumberExistance outage tenantId n ex :
  frames (validateEstimateNumberExistance outage tenantId n ex).
Proof.
  unfold validateEstimateNumberExistance.
  destruct n; [frames_validator|auto with frames].
Qed.

Lemma frames_getSaleEstimateOrThrowError outage tenantId i :
  frames (getSaleEstimateOrThrowError outage tenantId i).
Proof. unfold getSaleEstimateOrThrowError. frames_validator. Qed.

#[local] Hint Resolve frames_getCustomer frames_validateItemsIdsExistance
  frames_validateNonSellableEntriesItems frames_validateEntriesIdsExistance
  frames_validateEstimateNumberExistance frames_getSaleEstimateOrThrowError
  : frames.

(** A write that throws has changed nothing; one that returns has replaced
    the tenant's tables by the ones the query produced. *)
Lemma write_inv {A} outage tenantId (q : db → outcome (A * db)) w r w' :
  write outage tenantId q w = (r, w') →
  dispatched w' = dispatched w
  ∧ match r with
    | Ok a =>
        ∃ d', q (storage w tenantId) = Ok (a, d')
              ∧ storage w' = set_db (storage w) tenantId d'
    | Throw _ => storage w' = storage w
    end.
Proof.
  unfold write. destruct (outage (calls w)).
  - intros [= <- <-]. auto.
  - destruct (q (storage w tenantId)) as [[a d']|e]; intros [= <- <-];
      simpl; eauto.
Qed.

Lemma set_db_same st tenantId d : set_db st tenantId d tenantId = d.
Proof. unfold set_db. rewrite decide_True by reflexivity. reflexivity. Qed.

Lemma set_db_other st tenantId d t :
  t ≠ tenantId → set_db st tenantId d t = st t.
Proof. intros. unfold set_db. rewrite decide_False by assumption. reflexivity. Qed.

(** ** The graph write, step by step *)

Lemma upsertGraphAndFetch_throws g d e :
  upsertGraphAndFetch g d = Throw e → e = StorageError.
Proof.
  unfold upsertGraphAndFetch. repeat case_match; congruence.
Qed.

(** What a run of the graph write did. If it returned, every statement of
    the plan was applied to the tenant's tables and the written graph was
    read back. If it threw, the error is the storage's, and either no
    table has changed or the tenant's tables are those after some first
    statements of the plan. Nothing is dispatched and no other tenant is
    touched in any case. *)
Lemma write_graph_inv outage tenantId g w r w' :
  write_graph outage tenantId g w = (r, w') →
  dispatched w' = dispatched w
  ∧ cut w' = cut w
  ∧ (∀ t, t ≠ tenantId → storage w' t = storage w t)
  ∧ match r with
    | Ok g' =>
        ∃ d', upsertGraphAndFetch g (storage w tenantId) = Ok (g', d')
              ∧ storage w' = set_db (storage w) tenantId d'
    | Throw e =>
        e = StorageError
        ∧ (storage w' = storage w
           ∨ ∃ d', broken_off g (storage w tenantId) d'
                   ∧ storage w' = set_db (storage w) tenantId d')
    end.
Proof.
  unfold write_graph. destruct (outage (calls w)).
  { intros [= <- <-]. simpl. repeat split; auto. }
  cbn zeta.
  destruct (upsert_plan g (storage w tenantId)) as [[docId ss]|] eqn:Ep.
  - destruct (cut w (calls w)) as [k|].
    + intros [= <- <-]. simpl.
      do 2 (split; [reflexivity|]).
      split; [intros t Ht; apply set_db_other, Ht|].
      split; [reflexivity|]. right. eexists. split; [|reflexivity].
      exists docId, ss, k. auto.
    + destruct (upsertGraphAndFetch g (storage w tenantId))
        as [[g' d']|e] eqn:Eu; intros [= <- <-]; simpl.
      * do 2 (split; [reflexivity|]).
        split; [intros t Ht; apply set_db_other, Ht|]. eauto.
      * apply upsertGraphAndFetch_throws in Eu. repeat split; auto.
  - destruct (upsertGraphAndFetch g (storage w tenantId))
      as [[g' d']|e] eqn:Eu.
    { unfold upsertGraphAndFetch in Eu. rewrite Ep in Eu. discriminate. }
    replace (match cut w (calls w) with
             | Some _ | _ => (@Throw graph e, tick w)
             end) with (@Throw graph e, tick w)
      by (destruct (cut w (calls w)); reflexivity).
    intros [= <- <-]. simpl.
    apply upsertGraphAndFetch_throws in Eu. repeat split; auto.
Qed.

(** In a world where the storage breaks off no graph write, the graph
    write is all or nothing. *)
Lemma write_graph_steady outage tenantId g w :
  steady w →
  write_graph outage tenantId g w
  = write outage tenantId (upsertGraphAndFetch g) w.
Proof.
  intros Hs. unfold write_graph, write.
  destruct (outage (calls w)); [reflexivity|]. cbn zeta.
  rewrite Hs. destruct (upsert_plan g (storage w tenantId)) as [[? ?]|];
    reflexivity.
Qed.

(** ** The validation gates *)

Lemma filter_ext_elem_of {A} (P1 P2 : A → Prop)
    `{!∀ x, Decision (P1 x), !∀ x, Decision (P2 x)} (l : list A) :
  (∀ x, x ∈ l → P1 x ↔ P2 x) → filter P1 l = filter P2 l.
Proof.
  induction l as [|a l IH]; intros Hext; [reflexivity|].
  rewrite !filter_cons, IH by (intros; apply Hext; set_solver).
  assert (Ha : P1 a ↔ P2 a) by (apply Hext; set_solver).
  destruct (decide (P1 a)) as [p|p].
  - rewrite decide_True by tauto. reflexivity.
  - rewrite decide_False by tauto. reflexivity.
Qed.

(** The ids missing among the items the validation fetched are the ids
    missing in the table. *)
Lemma missing_among_found d es :
  filter (λ i, i ∉ rid <$> filter (λ r, rid r ∈ items_ids es) (Item d))
         (items_ids es)
  = missing_items d es.
Proof.
  apply filter_ext_elem_of. intros i Hi.
  rewrite !list_elem_of_fmap.
  split; intros Hn (r & -> & Hr); apply Hn; exists r; split; auto.
  - apply list_elem_of_filter. auto.
  - apply list_elem_of_filter in Hr as [_ Hr]. exact Hr.
Qed.

Lemma elem_of_missing_items d es i :
  i ∈ missing_items d es ↔ i ∈ items_ids es ∧ i ∉ rid <$> Item d.
Proof. unfold missing_items. rewrite list_elem_of_filter. tauto. Qed.

(** On reliable storage each gate decides by the tables alone. *)
Lemma validateEstimateNumberExistance_run tenantId n ex w :
  validateEstimateNumberExistance reliable tenantId (Some n) ex w
  = (match find (number_taken n ex) (SaleEstimate (storage w tenantId)) with
     | Some _ =>
         Throw (ServiceError ERRORS.SALE_ESTIMATE_NUMBER_EXISTANCE [])
     | None => Ok tt
     end, tick w).
Proof.
  unfold validateEstimateNumberExistance, bind, read, reliable.
  destruct (find _ _); reflexivity.
Qed.

Lemma getCustomer_run tenantId customerId w :
  getCustomer reliable tenantId customerId w
  = (match as_id customerId
             ≫= findById (Customer (storage w tenantId)) with
     | Some c => Ok (to_obj c)
     | None => Throw (ServiceError ERRORS.CUSTOMER_NOT_FOUND [])
     end, tick w).
Proof.
  unfold getCustomer, bind, read, reliable.
  destruct (as_id customerId) as [c|]; simpl; [|reflexivity].
  destruct (findById _ c); reflexivity.
Qed.

Lemma validateItemsIdsExistance_run tenantId es w :
  validateItemsIdsExistance reliable tenantId es w
  = (match missing_items (storage w tenantId) es with
     | [] => Ok tt
     | ids => Throw (ServiceError ERRORS.ITEMS_IDS_NOT_EXISTS ids)
     end, tick w).
Proof.
  unfold validateItemsIdsExistance, bind, read, reliable.
  rewrite missing_among_found. destruct (missing_items _ _); reflexivity.
Qed.

Lemma validateNonSellableEntriesItems_run tenantId es w :
  validateNonSellableEntriesItems reliable tenantId es w
  = (match non_sellable_items (storage w tenantId) es with
     | [] => Ok tt
     | ids => Throw (ServiceError ERRORS.NOT_SELLABLE_ITEMS ids)
     end, tick w).
Proof.
  unfold validateNonSellableEntriesItems, bind, read, reliable,
    non_sellable_items.
  destruct (filter _ _); reflexivity.
Qed.

(** Whatever the storage does, a gate that lets the run pass has found
    its condition to hold. *)
Section GatesPassed.
Context (outage : nat → bool).

Lemma validateEstimateNumberExistance_passed tenantId n ex w a w' :
  validateEstimateNumberExistance outage tenantId n ex w = (Ok a, w') →
  ∃ v, n = Some v
       ∧ find (number_taken v ex) (SaleEstimate (storage w tenantId)) = None.
Proof.
  unfold validateEstimateNumberExistance, bind, read, throw, ret.
  destruct n as [v|]; [|discriminate].
  destruct (outage (calls w)); [discriminate|].
  destruct (find _ _) eqn:E; [discriminate|]. eauto.
Qed.

Lemma getCustomer_passed tenantId customerId w c w' :
  getCustomer outage tenantId customerId w = (Ok c, w') →
  is_Some (as_id customerId ≫= findById (Customer (storage w tenantId))).
Proof.
  unfold getCustomer, bind, read, throw, ret.
  destruct (outage (calls w)); [discriminate|].
  destruct (as_id customerId) as [i|]; simpl; [|discriminate].
  destruct (findById _ i); [eauto|discriminate].
Qed.

Lemma validateItemsIdsExistance_passed tenantId es w a w' :
  validateItemsIdsExistance outage tenantId es w = (Ok a, w') →
  missing_items (storage w tenantId) es = [].
Proof.
  unfold validateItemsIdsExistance, bind, read, throw, ret.
  destruct (outage (calls w)); [discriminate|].
  rewrite missing_among_found.
  destruct (missing_items _ _); [reflexivity|discriminate].
Qed.

Lemma validateNonSellableEntriesItems_passed tenantId es w a w' :
  validateNonSellableEntriesItems outage tenantId es w = (Ok a, w') →
  non_sellable_items (storage w tenantId) es = [].
Proof.
  unfold validateNonSellableEntriesItems, bind, read, throw, ret,
    non_sellable_items.
  destruct (outage (calls w)); [discriminate|].
  destruct (filter _ _); [reflexivity|discriminate].
Qed.

End GatesPassed.

(** ** createEstimate, step by step *)

(** Peel one validation gate off a run: either it threw, and nothing was
    touched, or the run goes on from a world with the same tables. *)
Ltac framed H1 E1 E2 E3 :=
  match type of H1 with
  | ?m ?w = _ =>
      let F := fresh "F" in
      assert (F : frames m) by auto with frames;
      apply F in H1 as (E1 & E2 & E3); clear F
  end.

Section CreateEstimate.
Context (outage : nat → bool).
Context (calcAmount : obj → Z) (formatDate : val → val).

(** What a run of [createEstimate] did. If it returned, the four gates
    had passed, the graph write was applied in full to the tenant's
    tables as they were at the start, and the created event was
    dispatched, bare. If it threw, nothing was dispatched, and either no
    table has changed, or the gates had passed and it is the graph write
    that was broken off, which leaves the tables after some first
    statements of its plan. *)
Lemma createEstimate_inv tenantId dto w r w' :
  createEstimate outage calcAmount formatDate tenantId dto w = (r, w') →
  cut w' = cut w
  ∧ (∀ t, t ≠ tenantId → storage w' t = storage w t)
  ∧ match r with
    | Ok g =>
        gates_passed (storage w tenantId) dto
        ∧ ∃ d', upsertGraphAndFetch (create_graph calcAmount formatDate dto)
                  (storage w tenantId) = Ok (g, d')
                ∧ storage w' = set_db (storage w) tenantId d'
                ∧ dispatched w' = dispatched w ++ [(onCreated, None)]
    | Throw e =>
        dispatched w' = dispatched w
        ∧ (storage w' = storage w
           ∨ (gates_passed (storage w tenantId) dto
              ∧ e = StorageError
              ∧ ∃ d', broken_off (create_graph calcAmount formatDate dto)
                        (storage w tenantId) d'
                      ∧ storage w' = set_db (storage w) tenantId d'))
    end.
Proof.
  unfold createEstimate. intros H.
  apply bind_inv in H as [(a1 & w1 & H1 & H)|(e & H1 & ->)]; cycle 1.
  { framed H1 Es Ed Ec. rewrite Es. auto. }
  pose proof (validateEstimateNumberExistance_passed _ _ _ _ _ _ _ H1) as G1.
  framed H1 Es1 Ed1 Ec1.
  apply bind_inv in H as [(a2 & w2 & H2 & H)|(e & H2 & ->)]; cycle 1.
  { framed H2 Es Ed Ec. rewrite Es, Es1, Ec, Ed. auto. }
  pose proof (getCustomer_passed _ _ _ _ _ _ H2) as G2.
  framed H2 Es2 Ed2 Ec2.
  apply bind_inv in H as [(a3 & w3 & H3 & H)|(e & H3 & ->)]; cycle 1.
  { framed H3 Es Ed Ec. rewrite Es, Es2, Es1, Ec, Ed. split; [congruence|].
    split; [reflexivity|]. split; [congruence|]. auto. }
  pose proof (validateItemsIdsExistance_passed _ _ _ _ _ _ H3) as G3.
  framed H3 Es3 Ed3 Ec3.
  apply bind_inv in H as [(a4 & w4 & H4 & H)|(e & H4 & ->)]; cycle 1.
  { framed H4 Es Ed Ec. rewrite Es, Es3, Es2, Es1.
    split; [congruence|]. split; [reflexivity|]. split; [congruence|]. auto. }
  pose proof (validateNonSellableEntriesItems_passed _ _ _ _ _ _ H4) as G4.
  framed H4 Es4 Ed4 Ec4.
  assert (Es : storage w4 = storage w) by congruence.
  assert (Ed : dispatched w4 = dispatched w) by congruence.
  assert (Ec : cut w4 = cut w) by congruence.
  assert (G : gates_passed (storage w tenantId) dto).
  { rewrite Es1 in G2. rewrite Es2, Es1 in G3. rewrite Es3, Es2, Es1 in G4.
    repeat split; assumption. }
  clear G1 G2 G3 G4 Es1 Es2 Es3 Es4 Ed1 Ed2 Ed3 Ed4 Ec1 Ec2 Ec3 Ec4.
  apply bind_inv in H as [(g & wg & H5 & H)|(e & H5 & ->)].
  - apply write_graph_inv in H5 as (Ed' & Ec' & Ho & d' & Hq & Es').
    inversion H; subst; clear H. simpl. rewrite Es in *.
    split; [congruence|]. split; [exact Ho|]. split; [exact G|].
    exists d'. rewrite Ed', Ed. auto.
  - apply write_graph_inv in H5 as (Ed' & Ec' & Ho & -> & Hs).
    rewrite Es in *.
    split; [congruence|]. split; [exact Ho|]. split; [congruence|].
    destruct Hs as [Hs|(d' & Hb & Hs)]; [left; congruence|].
    right. split; [exact G|]. split; [reflexivity|]. eauto.
Qed.

End CreateEstimate.

(** ** Failing validation and the store *)

Section Validation.
Context (calcAmount : obj → Z) (formatDate : val → val).

(** The gates of [createEstimate] on reliable storage, as far as the run
    gets through them. *)
Lemma createEstimate_gates tenantId dto w :
  let d := storage w tenantId in
  let create := createEstimate reliable calcAmount formatDate tenantId dto w in
  (∀ n, root dto !! "estimate_number" = Some n →
        is_Some (find (number_taken n None) (SaleEstimate d)) →
        create = (Throw duplicate_number, tick w))
  ∧ (number_free d dto → ¬ customer_known d dto →
     create
     = (Throw (ServiceError ERRORS.CUSTOMER_NOT_FOUND []), tick (tick w)))
  ∧ (number_free d dto → customer_known d dto →
     missing_items d (entries dto) ≠ [] →
     create
     = (Throw (ServiceError ERRORS.ITEMS_IDS_NOT_EXISTS
                 (missing_items d (entries dto))),
        tick (tick (tick w))))
  ∧ (number_free d dto → customer_known d dto →
     missing_items d (entries dto) = [] →
     non_sellable_items d (entries dto) ≠ [] →
     create
     = (Throw (ServiceError ERRORS.NOT_SELLABLE_ITEMS
                 (non_sellable_items d (entries dto))),
        tick (tick (tick (tick w))))).
Proof.
  intros d create. subst d create. unfold createEstimate.
  split; [|split; [|split]].
  - intros n Hn [r Hr]. erewrite bind_throw; [reflexivity|].
    rewrite Hn, validateEstimateNumberExistance_run, Hr. reflexivity.
  - intros (n & Hn & Hfree) Hc.
    rewrite (bind_ok _ _ _ tt (tick w)); cycle 1.
    { rewrite Hn, validateEstimateNumberExistance_run, Hfree. reflexivity. }
    erewrite bind_throw; [reflexivity|].
    rewrite getCustomer_run. simpl storage. unfold customer_known in Hc.
    destruct (as_id _ ≫= _); [destruct Hc; eauto|reflexivity].
  - intros (n & Hn & Hfree) [c Hc] Hm.
    rewrite (bind_ok _ _ _ tt (tick w)); cycle 1.
    { rewrite Hn, validateEstimateNumberExistance_run, Hfree. reflexivity. }
    rewrite (bind_ok _ _ _ (to_obj c) (tick (tick w))); cycle 1.
    { rewrite getCustomer_run. simpl storage. rewrite Hc. reflexivity. }
    erewrite bind_throw; [reflexivity|].
    rewrite validateItemsIdsExistance_run. simpl storage.
    destruct (missing_items _ _); [congruence|reflexivity].
  - intros (n & Hn & Hfree) [c Hc] Hm Hs.
    rewrite (bind_ok _ _ _ tt (tick w)); cycle 1.
    { rewrite Hn, validateEstimateNumberExistance_run, Hfree. reflexivity. }
    rewrite (bind_ok _ _ _ (to_obj c) (tick (tick w))); cycle 1.
    { rewrite getCustomer_run. simpl storage. rewrite Hc. reflexivity. }
    rewrite (bind_ok _ _ _ tt (tick (tick (tick w)))); cycle 1.
    { rewrite validateItemsIdsExistance_run. simpl storage. rewrite Hm.
      reflexivity. }
    erewrite bind_throw; [reflexivity|].
    rewrite validateNonSellableEntriesItems_run. simpl storage.
    destruct (non_sellable_items _ _); [congruence|reflexivity].
Qed.

(** C2, as amended. On reliable storage, a create DTO that has an estimate
    number which is free and whose customer exists, and which has an entry
    whose item id is not in the tenant's storage, makes [createEstimate]
    fail with ITEMS_IDS_NOT_EXISTS; the error lists exactly the item ids
    of the DTO that the storage lacks, in the order of the entries; no
    table of any tenant has changed and no event was dispatched. The
    gates run in the order uniqueness, customer, items, sellability, and
    the first that fails decides the error: a taken number gives the
    duplicate error whatever else the DTO holds, an unknown customer the
    customer error whatever the entries are, and an item that is stored
    but not sellable is refused once every item is found. And whatever the
    storage does: unless all four gates pass ([gates_passed]), the run
    throws, no table has changed and nothing is dispatched; so whatever is
    written is written after the last gate. *)
Theorem createEstimate_missing_items tenantId dto w :
  let d := storage w tenantId in
  (number_free d dto → customer_known d dto →
   (∃ i, i ∈ items_ids (entries dto) ∧ i ∉ rid <$> Item d) →
   ∃ ids w',
     createEstimate reliable calcAmount formatDate tenantId dto w
     = (Throw (ServiceError ERRORS.ITEMS_IDS_NOT_EXISTS ids), w')
     ∧ ids = filter (λ i, i ∉ rid <$> Item d) (items_ids (entries dto))
     ∧ (∀ i, i ∈ ids ↔ i ∈ items_ids (entries dto) ∧ i ∉ rid <$> Item d)
     ∧ storage w' = storage w
     ∧ dispatched w' = dispatched w)
  ∧ (∀ n, root dto !! "estimate_number" = Some n →
          is_Some (find (number_taken n None) (SaleEstimate d)) →
          thrown (createEstimate reliable calcAmount formatDate tenantId
                    dto w)
          = Some (ServiceError ERRORS.SALE_ESTIMATE_NUMBER_EXISTANCE []))
  ∧ (number_free d dto → ¬ customer_known d dto →
     thrown (createEstimate reliable calcAmount formatDate tenantId dto w)
     = Some (ServiceError ERRORS.CUSTOMER_NOT_FOUND []))
  ∧ (number_free d dto → customer_known d dto →
     missing_items d (entries dto) = [] →
     non_sellable_items d (entries dto) ≠ [] →
     thrown (createEstimate reliable calcAmount formatDate tenantId dto w)
     = Some (ServiceError ERRORS.NOT_SELLABLE_ITEMS
               (non_sellable_items d (entries dto))))
  ∧ (∀ outage r w',
       createEstimate outage calcAmount formatDate tenantId dto w = (r, w') →
       ¬ gates_passed d dto →
       (∃ e, r = Throw e)
       ∧ storage w' = storage w
       ∧ dispatched w' = dispatched w).
Proof.
  intros d. subst d.
  destruct (createEstimate_gates tenantId dto w) as (G1 & G2 & G3 & G4).
  split; [|split; [|split; [|split]]].
  - intros Hn Hc (i & Hi & Hni).
    assert (Hm : missing_items (storage w tenantId) (entries dto) ≠ []).
    { intros E.
      assert (Hin : i ∈ missing_items (storage w tenantId) (entries dto))
        by (apply elem_of_missing_items; auto).
      rewrite E in Hin. apply elem_of_nil in Hin as []. }
    exists (missing_items (storage w tenantId) (entries dto)).
    eexists. split; [apply (G3 Hn Hc Hm)|].
    split; [reflexivity|]. split; [|split; reflexivity].
    intros j. apply elem_of_missing_items.
  - intros n Hn Ht. unfold thrown. rewrite (G1 n Hn Ht). reflexivity.
  - intros Hn Hc. unfold thrown. rewrite (G2 Hn Hc). reflexivity.
  - intros Hn Hc Hm Hs. unfold thrown. rewrite (G4 Hn Hc Hm Hs). reflexivity.
  - intros outage r w' H Hnot.
    apply createEstimate_inv in H as (_ & _ & H).
    destruct r as [g|e].
    + destruct H as [G _]. destruct (Hnot G).
    + destruct H as [Hd [Hs|(G & _)]]; [eauto|destruct (Hnot G)].
Qed.

End Validation.

(** The amended C2 at a DTO for tenant 1 that orders the unknown item 42
    under the free number E2. *)
Lemma createEstimate_missing_items_witness :
  ∃ w',
    createEstimate reliable quantity_rate id 1
      (Graph {["estimate_number" := VStr "E2"; "customer_id" := VNum 3]}
             [{["item_id" := VNum 42]}]) world_E1
    = (Throw (ServiceError ERRORS.ITEMS_IDS_NOT_EXISTS [42]), w')
    ∧ storage w' = storage world_E1.
Proof.
  destruct (createEstimate_missing_items quantity_rate id 1
              (Graph {["estimate_number" := VStr "E2";
                       "customer_id" := VNum 3]}
                     [{["item_id" := VNum 42]}]) world_E1)
    as [H _].
  destruct H as (ids & w' & Hrun & Hids & _ & Hst & _).
  - exists (VStr "E2"). split; vm_compute; reflexivity.
  - vm_compute. eauto.
  - exists 42. split; [vm_compute; set_solver|].
    vm_compute. set_solver.
  - exists w'. split; [|exact Hst].
    rewrite Hrun, Hids. vm_compute. reflexivity.
Defined.

(** C2, as stated, fails: the DTO below has an entry whose item 42 is not
    in tenant 1's storage, yet [createEstimate] fails with the
    duplicate-number error, not with ITEMS_IDS_NOT_EXISTS, because the
    number gate comes first and E1 is taken. *)
Lemma createEstimate_missing_item_taken_number :
  items_ids [{["item_id" := VNum 42]}] = [42]
  ∧ rid <$> Item (storage world_E1 1) = [7; 8]
  ∧ ∀ calcAmount formatDate,
      thrown (createEstimate reliable calcAmount formatDate 1
                (Graph {["estimate_number" := VStr "E1";
                         "customer_id" := VNum 3]}
                       [{["item_id" := VNum 42]}]) world_E1)
      = Some (ServiceError ERRORS.SALE_ESTIMATE_NUMBER_EXISTANCE []).
Proof. repeat split; intros; vm_compute; reflexivity. Qed.

(** ** Entry ids on edit *)

(** C7, at the input where it fails. In [world_E1] document 1 of tenant 1
    owns exactly one entry, the row with id 1 under the pair
    (1, 'SaleEstimate'). The edit DTO [edit_E1_entry_1] claims that entry
    and nothing else, so every claimed id belongs to the document; yet
    [editEstimate] fails in its entry-existence validation, which it
    scopes to the reference type 'SaleEstiamte', under which no entry is
    stored. *)
Theorem edit_rejects_own_entry (calcAmount : obj → Z)
    (formatDate : val → val) :
  child_ids (entries edit_E1_entry_1) = [1]
  ∧ rid <$> filter (λ r, belongs 1 "SaleEstimate" r)
                   (ItemEntry (storage world_E1 1)) = [1]
  ∧ filter (λ r, belongs 1 "SaleEstiamte" r)
           (ItemEntry (storage world_E1 1)) = []
  ∧ thrown (editEstimate reliable calcAmount formatDate 1 1
              edit_E1_entry_1 world_E1)
    = Some (ServiceError ERRORS.ENTRIES_IDS_NOT_FOUND [1]).
Proof. repeat split; vm_compute; reflexivity. Qed.

Lemma validateEntriesIdsExistance_run tenantId referenceId referenceType
    es w :
  validateEntriesIdsExistance reliable tenantId referenceId referenceType
    es w
  = (match filter (λ i, i ∉ rid <$> filter
                                      (λ r, belongs referenceId
                                              referenceType r)
                                      (ItemEntry (storage w tenantId)))
                  (child_ids es) with
     | [] => Ok tt
     | ids => Throw (ServiceError ERRORS.ENTRIES_IDS_NOT_FOUND ids)
     end, tick w).
Proof.
  unfold validateEntriesIdsExistance, bind, read, reliable.
  destruct (filter _ (child_ids es)); reflexivity.
Qed.

(** As long as no entry is stored under the misspelt reference type, no
    edit that claims an entry id returns: whichever entries the document
    owns, the entry-existence validation rejects the claimed ids. *)
Lemma edit_claiming_entries_never_returns calcAmount formatDate
    tenantId estimateId dto w :
  child_ids (entries dto) ≠ [] →
  filter (λ r, belongs estimateId "SaleEstiamte" r)
         (ItemEntry (storage w tenantId)) = [] →
  returned (editEstimate reliable calcAmount formatDate tenantId estimateId
              dto w) = None.
Proof.
  intros Hids Hnone. unfold returned.
  destruct (editEstimate _ _ _ _ _ _ w) as [[g|e] w'] eqn:H;
    [exfalso|reflexivity].
  unfold editEstimate in H.
  apply bind_inv in H as [(old & w1 & H1 & H)|(e & _ & [=])].
  framed H1 Es1 Ed1 Ec1.
  apply bind_inv in H as [(a2 & w2 & H2 & H)|(e & _ & [=])].
  framed H2 Es2 Ed2 Ec2.
  apply bind_inv in H as [(a3 & w3 & H3 & H)|(e & _ & [=])].
  framed H3 Es3 Ed3 Ec3.
  apply bind_inv in H as [(a4 & w4 & H4 & _)|(e & _ & [=])].
  rewrite validateEntriesIdsExistance_run in H4.
  rewrite Es3, Es2, Es1, Hnone in H4.
  destruct (child_ids (entries dto)) as [|i ids] eqn:E; [congruence|].
  rewrite filter_cons_True in H4 by (simpl; apply not_elem_of_nil).
  discriminate.
Qed.

(** ** Lifecycle events *)

(** C8, at an input where it fails. Creating [estimate_E1] for tenant 1
    succeeds and stores document 1, and the one event dispatched is
    [onCreated] with no payload at all: neither the tenant id, nor the id,
    nor the document reaches the subscribers. *)
Theorem created_event_has_no_payload (calcAmount : obj → Z)
    (formatDate : val → val) :
  (returned (createEstimate reliable calcAmount formatDate 1 estimate_E1
               fresh_world)
     ≫= λ g, root g !! "id") = Some (VNum 1)
  ∧ dispatched (snd (createEstimate reliable calcAmount formatDate 1
                       estimate_E1 fresh_world))
    = [(onCreated, None)].
Proof. split; vm_compute; reflexivity. Qed.

(** On every run: the created event is dispatched after the graph write,
    only when the write was applied, and carries no payload. *)
Lemma created_event_follows_write outage calcAmount formatDate
    tenantId dto w g w' :
  createEstimate outage calcAmount formatDate tenantId dto w = (Ok g, w') →
  dispatched w' = dispatched w ++ [(onCreated, None)]
  ∧ ∃ d', upsertGraphAndFetch (create_graph calcAmount formatDate dto)
            (storage w tenantId) = Ok (g, d')
          ∧ storage w' = set_db (storage w) tenantId d'.
Proof.
  intros H.
  apply createEstimate_inv in H as (_ & _ & _ & d' & Hu & Hs & Hd).
  split; [exact Hd|]. eauto.
Qed.

(** The sibling events carry their payload. *)
Lemma edited_and_deleted_events_have_payload :
  (snd <$> dispatched (snd (editEstimate reliable quantity_rate id 1 1
                              (Graph (root estimate_E1) []) world_E1)))
  = [None;
     Some [("tenantId", PNum 1); ("estimateId", PNum 1);
           ("saleEstimate",
            PGraph (Graph (<["id" := VNum 1]>
                             (<["amount" := VNum 0]> (root estimate_E1)))
                          []));
           ("oldSaleEstimate",
            PRow (<["id" := VNum 1]>
                    (<["amount" := VNum 100]> (root estimate_E1))))]]
  ∧ (snd <$> dispatched (snd (deleteEstimate reliable 1 1 world_E1)))
    = [None;
       Some [("tenantId", PNum 1); ("saleEstimateId", PNum 1);
             ("oldSaleEstimate",
              PRow (<["id" := VNum 1]>
                      (<["amount" := VNum 100]> (root estimate_E1))))]].
Proof. split; vm_compute; reflexivity. Qed.

(** ** Finding rows *)

Lemma find_is_None {A} (f : A → bool) (l : list A) :
  find f l = None ↔ ∀ x, x ∈ l → f x = false.
Proof.
  split.
  - intros H x Hx. apply (find_none f l H). apply list_elem_of_In, Hx.
  - intros H. destruct (find f l) as [x|] eqn:E; [|reflexivity].
    apply find_some in E as [Hin Hf]. apply list_elem_of_In in Hin.
    rewrite (H x Hin) in Hf. discriminate.
Qed.

Lemma find_is_Some {A} (f : A → bool) (l : list A) x :
  x ∈ l → f x = true → is_Some (find f l).
Proof.
  intros Hx Hf. destruct (find f l) eqn:E; [eauto|].
  apply find_is_None with (x := x) in E; [congruence|exact Hx].
Qed.

Lemma findById_Some t i r :
  findById t i = Some r → r ∈ t ∧ rid r = i.
Proof.
  unfold findById. intros H. apply find_some in H as [Hin Hf].
  apply list_elem_of_In in Hin. apply bool_decide_eq_true in Hf. auto.
Qed.

Lemma findById_is_Some t r : r ∈ t → is_Some (findById t (rid r)).
Proof.
  intros Hr. apply (find_is_Some _ _ r Hr). apply bool_decide_eq_true.
  reflexivity.
Qed.

Lemma rid_lt_past_keys t r : r ∈ t → rid r < past_keys t.
Proof.
  unfold past_keys. induction 1 as [r t|r r' t _ IH]; simpl; lia.
Qed.

(** The key a table hands out is above every key it holds and not below
    its counter. *)
Lemma rid_lt_next_key seq t r : r ∈ t → rid r < next_key seq t.
Proof. intros Hr. apply rid_lt_past_keys in Hr. unfold next_key. lia. Qed.

Lemma seq_le_next_key seq t : seq ≤ next_key seq t.
Proof. unfold next_key. lia. Qed.

Lemma findById_snoc t i c :
  (∀ r, r ∈ t → rid r ≠ i) → findById (t ++ [Row i c]) i = Some (Row i c).
Proof.
  unfold findById. induction t as [|r t IH]; intros H; simpl.
  - rewrite bool_decide_eq_true_2 by reflexivity. reflexivity.
  - rewrite bool_decide_eq_false_2 by (apply H; left).
    apply IH. intros r' Hr'. apply H. right. exact Hr'.
Qed.

Lemma findById_replace t i row old :
  rid row = i →
  findById t i = Some old →
  findById ((λ r, if bool_decide (rid r = i) then row else r) <$> t) i
  = Some row.
Proof.
  unfold findById. intros Hrow. induction t as [|r t IH]; [discriminate|].
  simpl. destruct (bool_decide (rid r = i)) eqn:E; simpl.
  - intros _. rewrite bool_decide_eq_true_2 by exact Hrow. reflexivity.
  - rewrite E. exact IH.
Qed.

Lemma findById_replace_other t i j row :
  i ≠ j → rid row = j →
  findById ((λ r, if bool_decide (rid r = j) then row else r) <$> t) i
  = findById t i.
Proof.
  intros Hne Hrow. unfold findById.
  induction t as [|r t IH]; [reflexivity|].
  cbn [fmap list_fmap find]. fold (@fmap list _).
  destruct (bool_decide (rid r = j)) eqn:Ej.
  - apply bool_decide_eq_true in Ej.
    rewrite (bool_decide_eq_false_2 (rid r = i)) by congruence.
    rewrite (bool_decide_eq_false_2 (rid row = i)) by congruence.
    exact IH.
  - destruct (bool_decide (rid r = i)); [reflexivity|exact IH].
Qed.

(** ** The graph write, in full *)

(** The graph write of a root without id, when every statement is
    accepted: the root row is inserted under the next key of the estimates
    table, the children after it, and the graph is read back. *)
Lemma upsertGraphAndFetch_insert g d :
  root g !! "id" = None →
  upsertGraphAndFetch g d
  = if forallb (λ c, bool_decide (c !! "id" = None)) (entries g) then
      let docId := next_key (SaleEstimate_seq d) (SaleEstimate d) in
      let d' := insert_entries docId (entries g)
                  (insert_root docId (root g) d) in
      Ok (fetch_graph d' (Row docId (root g)), d')
    else Throw StorageError.
Proof.
  intros Hid. unfold upsertGraphAndFetch, upsert_plan. rewrite Hid.
  destruct (forallb _ _); [|reflexivity].
  cbn [run_statements foldl]. cbn [insert_entries insert_root SaleEstimate].
  rewrite findById_snoc; [reflexivity|].
  intros r Hr. apply (rid_lt_next_key (SaleEstimate_seq d)) in Hr. lia.
Qed.

(** The graph write of a root with an id, when every statement is
    accepted: the stored row of that id is updated, and its entries are
    replaced by those of the graph. *)
Lemma upsertGraphAndFetch_update g d docId :
  root g !! "id" = Some (VNum docId) →
  upsertGraphAndFetch g d
  = match findById (SaleEstimate d) docId with
    | Some old =>
        if children_known
             (filter (λ r, belongs docId "SaleEstimate" r) (ItemEntry d))
             (entries g)
        then
          let row := Row docId (delete "id" (root g) ∪ cols old) in
          let d' :=
            patch_entries docId (entries g)
              (patch_root row
                 (insert_entries docId (entries g)
                    (delete_unmentioned docId (entries g) d))) in
          Ok (fetch_graph d' row, d')
        else Throw StorageError
    | None => Throw StorageError
    end.
Proof.
  intros Hid. unfold upsertGraphAndFetch, upsert_plan. rewrite Hid.
  cbn [as_id].
  destruct (findById (SaleEstimate d) docId) as [old|] eqn:Eold;
    [|reflexivity].
  destruct (children_known _ _); [|reflexivity].
  cbn [run_statements foldl].
  cbn [patch_entries patch_root insert_entries delete_unmentioned
       SaleEstimate rid].
  erewrite findById_replace; [reflexivity|reflexivity|exact Eold].
Qed.

Lemma upsertGraphAndFetch_inv g d g' d' :
  upsertGraphAndFetch g d = Ok (g', d') →
  (root g !! "id" = None
   ∧ let docId := next_key (SaleEstimate_seq d) (SaleEstimate d) in
     d' = insert_entries docId (entries g) (insert_root docId (root g) d)
     ∧ g' = fetch_graph d' (Row docId (root g)))
  ∨ (∃ docId old,
       root g !! "id" = Some (VNum docId)
       ∧ findById (SaleEstimate d) docId = Some old
       ∧ let row := Row docId (delete "id" (root g) ∪ cols old) in
         d' = patch_entries docId (entries g)
                (patch_root row
                   (insert_entries docId (entries g)
                      (delete_unmentioned docId (entries g) d)))
         ∧ g' = fetch_graph d' row).
Proof.
  destruct (root g !! "id") as [v|] eqn:Eid.
  - destruct v as [|b|docId|s];
      try (unfold upsertGraphAndFetch, upsert_plan; rewrite Eid;
           discriminate).
    rewrite (upsertGraphAndFetch_update g d docId Eid).
    destruct (findById (SaleEstimate d) docId) as [old|] eqn:Eold;
      [|discriminate].
    destruct (children_known _ _); [|discriminate].
    cbn zeta. intros [= <- <-]. right. exists docId, old. auto.
  - rewrite (upsertGraphAndFetch_insert g d Eid).
    destruct (forallb _ _); [|discriminate].
    cbn zeta. intros [= <- <-]. left. auto.
Qed.

(** When the graph write returns, the written root is a row of the
    estimates table and holds every property of the graph but the id. *)
Lemma upsertGraphAndFetch_root g d g' d' :
  upsertGraphAndFetch g d = Ok (g', d') →
  ∃ r, r ∈ SaleEstimate d'
       ∧ g' = fetch_graph d' r
       ∧ (∀ k v, k ≠ "id" → root g !! k = Some v → cols r !! k = Some v).
Proof.
  intros H.
  apply upsertGraphAndFetch_inv in H
    as [(Eid & -> & ->)|(docId & old & Eid & Eold & -> & ->)].
  - eexists. split; [|split; [reflexivity|]].
    + simpl. apply elem_of_app. right. apply list_elem_of_singleton.
      reflexivity.
    + intros k v _ Hv. exact Hv.
  - eexists. split; [|split; [reflexivity|]].
    + simpl. apply findById_Some in Eold as [Hin Hrid].
      apply list_elem_of_fmap. exists old. split; [|exact Hin].
      rewrite bool_decide_eq_true_2 by exact Hrid. reflexivity.
    + intros k v Hk Hv. simpl. apply lookup_union_Some_l.
      rewrite lookup_delete_ne by congruence. exact Hv.
Qed.

(** The row a graph write stored is the row its key finds. *)
Lemma upsertGraphAndFetch_found g d g' d' :
  upsertGraphAndFetch g d = Ok (g', d') →
  ∃ r, findById (SaleEstimate d') (rid r) = Some r
       ∧ g' = fetch_graph d' r
       ∧ Customer d' = Customer d.
Proof.
  intros H.
  apply upsertGraphAndFetch_inv in H
    as [(Eid & -> & ->)|(docId & old & Eid & Eold & -> & ->)].
  - eexists. split; [|split; reflexivity].
    simpl. apply findById_snoc.
    intros r Hr. apply (rid_lt_next_key (SaleEstimate_seq d)) in Hr. lia.
  - eexists. split; [|split; reflexivity].
    simpl. eapply findById_replace; [reflexivity|exact Eold].
Qed.

(** ** Uniqueness of the estimate number *)

(** The row the gate looks for: it carries the number and is not the
    excluded document. An excluded id of 0 is no exclusion ([if
    (notEstimateId)]), which is the same thing for keys that are never 0. *)
Lemma number_taken_spec n ex r :
  rid r ≠ 0 →
  number_taken n ex r = true
  ↔ cols r !! "estimate_number" = Some n ∧ Some (rid r) ≠ ex.
Proof.
  intros Hr. unfold number_taken, where_eq.
  rewrite andb_true_iff, bool_decide_eq_true.
  apply and_iff_compat_l.
  destruct ex as [k|]; simpl; [|split; [discriminate|reflexivity]].
  destruct (Z.eqb_spec k 0) as [->|Hk]; simpl.
  - split; [congruence|reflexivity].
  - rewrite negb_true_iff, bool_decide_eq_false. reflexivity.
Qed.

(** Errors a step can throw. *)
Lemma throws_only_bind {A B} (P : error → Prop) (m : M A) (k : A → M B) :
  throws_only P m → (∀ a, throws_only P (k a)) → throws_only P (bind m k).
Proof.
  intros Hm Hk w e w' H.
  apply bind_inv in H as [(a & w1 & H1 & H2)|(e' & H1 & [= <-])].
  - eapply Hk, H2.
  - eapply Hm, H1.
Qed.

Lemma throws_only_ret {A} P (a : A) : throws_only P (ret a).
Proof. intros w e w' [=]. Qed.

Lemma throws_only_throw {A} (P : error → Prop) e :
  P e → throws_only P (@throw A e).
Proof. intros He w e' w' [= <- <-]. exact He. Qed.

Lemma throws_only_read {A} (P : error → Prop) outage tenantId (q : db → A) :
  P StorageError → throws_only P (read outage tenantId q).
Proof.
  intros He w e w'. unfold read.
  destruct (outage (calls w)); intros [= <- <-]. exact He.
Qed.

Lemma throws_only_write_graph (P : error → Prop) outage tenantId g :
  P StorageError → throws_only P (write_graph outage tenantId g).
Proof.
  intros He w e w' H. apply write_graph_inv in H as (_ & _ & _ & -> & _).
  exact He.
Qed.

Lemma throws_only_dispatch P name payload :
  throws_only P (dispatch name payload).
Proof. intros w e w' [=]. Qed.

Ltac not_duplicate_step :=
  repeat first
    [ apply throws_only_ret
    | apply throws_only_dispatch
    | apply throws_only_throw; unfold not_duplicate; intros [=]
    | apply throws_only_read; unfold not_duplicate; intros [=]
    | apply throws_only_bind; [|intros ?]
    | progress case_match ].

Section NumberGate.
Context (calcAmount : obj → Z) (formatDate : val → val).

Lemma getSaleEstimateOrThrowError_not_duplicate outage tenantId i :
  throws_only not_duplicate (getSaleEstimateOrThrowError outage tenantId i).
Proof. unfold getSaleEstimateOrThrowError. not_duplicate_step. Qed.

Lemma getCustomer_not_duplicate outage tenantId c :
  throws_only not_duplicate (getCustomer outage tenantId c).
Proof. unfold getCustomer. not_duplicate_step. Qed.

Lemma validateItemsIdsExistance_not_duplicate outage tenantId es :
  throws_only not_duplicate (validateItemsIdsExistance outage tenantId es).
Proof. unfold validateItemsIdsExistance. not_duplicate_step. Qed.

Lemma validateNonSellableEntriesItems_not_duplicate outage tenantId es :
  throws_only not_duplicate
    (validateNonSellableEntriesItems outage tenantId es).
Proof. unfold validateNonSellableEntriesItems. not_duplicate_step. Qed.

Lemma validateEntriesIdsExistance_not_duplicate outage tenantId i ty es :
  throws_only not_duplicate
    (validateEntriesIdsExistance outage tenantId i ty es).
Proof. unfold validateEntriesIdsExistance. not_duplicate_step. Qed.

Lemma write_graph_not_duplicate outage tenantId g :
  throws_only not_duplicate (write_graph outage tenantId g).
Proof. apply throws_only_write_graph. intros [=]. Qed.

(** On storage that answers and breaks off no graph write, the outcome of
    [createEstimate] depends on the tables of its own tenant only. *)
Lemma createEstimate_tenant_local tenantId dto w1 w2 :
  storage w1 tenantId = storage w2 tenantId →
  steady w1 → steady w2 →
  fst (createEstimate reliable calcAmount formatDate tenantId dto w1)
  = fst (createEstimate reliable calcAmount formatDate tenantId dto w2).
Proof.
  intros E S1 S2.
  unfold createEstimate, validateEstimateNumberExistance, getCustomer,
    validateItemsIdsExistance, validateNonSellableEntriesItems,
    bind, read, write_graph, dispatch, ret, throw, reliable.
  destruct (root dto !! "estimate_number") as [n|]; [|reflexivity].
  unfold steady in S1, S2. simpl. rewrite ?E, ?S1, ?S2.
  repeat (case_match; simpl in *; rewrite ?E, ?S1, ?S2 in *; simplify_eq;
          try reflexivity).
Qed.

End NumberGate.

Section Uniqueness.
Context (calcAmount : obj → Z) (formatDate : val → val).

(** The gate raises the duplicate error exactly when a stored document of
    the tenant, other than the excluded one, carries the number. *)
Lemma number_gate_spec tenantId n ex w :
  Forall (λ r, rid r ≠ 0) (SaleEstimate (storage w tenantId)) →
  let taken := ∃ r, r ∈ SaleEstimate (storage w tenantId)
                    ∧ cols r !! "estimate_number" = Some n
                    ∧ Some (rid r) ≠ ex in
  (taken →
   fst (validateEstimateNumberExistance reliable tenantId (Some n) ex w)
   = Throw duplicate_number)
  ∧ (¬ taken →
     fst (validateEstimateNumberExistance reliable tenantId (Some n) ex w)
     = Ok tt).
Proof.
  intros Hids taken. rewrite validateEstimateNumberExistance_run. simpl.
  rewrite Forall_forall in Hids.
  destruct (find _ _) as [r|] eqn:E.
  - split; [reflexivity|]. intros Hn. destruct Hn.
    apply find_some in E as [Hin Hf]. apply list_elem_of_In in Hin.
    exists r. split; [exact Hin|].
    apply number_taken_spec; auto.
  - split; [|reflexivity]. intros (r & Hin & Hnum & Hex).
    rewrite find_is_None in E. specialize (E r Hin).
    assert (number_taken n ex r = true)
      by (apply number_taken_spec; auto).
    congruence.
Qed.

(** After a successful create, the number of the DTO is taken in that
    tenant. *)
Lemma created_number_is_stored tenantId dto n w g w' :
  root dto !! "estimate_number" = Some n →
  createEstimate reliable calcAmount formatDate tenantId dto w = (Ok g, w') →
  ∃ r, r ∈ SaleEstimate (storage w' tenantId)
       ∧ cols r !! "estimate_number" = Some n.
Proof.
  intros Hn H.
  apply createEstimate_inv in H as (_ & _ & _ & d' & Hu & Hs & _).
  apply upsertGraphAndFetch_root in Hu as (r & Hr & _ & Hcols).
  exists r. split.
  - rewrite Hs. unfold set_db. rewrite decide_True by reflexivity. exact Hr.
  - apply Hcols; [discriminate|].
    change (root (create_graph calcAmount formatDate dto))
      with (root (estimateObj calcAmount formatDate dto)).
    rewrite lookup_estimateObj, Hn by set_solver. reflexivity.
Qed.

Lemma second_create_fails tenantId dto dto' n w g w' :
  root dto !! "estimate_number" = Some n →
  root dto' !! "estimate_number" = Some n →
  createEstimate reliable calcAmount formatDate tenantId dto w = (Ok g, w') →
  fst (createEstimate reliable calcAmount formatDate tenantId dto' w')
  = Throw duplicate_number.
Proof.
  intros Hn Hn' H.
  destruct (created_number_is_stored _ _ _ _ _ _ Hn H) as (r & Hr & Hnum).
  unfold createEstimate.
  erewrite bind_throw; [reflexivity|].
  rewrite Hn', validateEstimateNumberExistance_run.
  destruct (find _ _) eqn:E; [reflexivity|].
  rewrite find_is_None in E. specialize (E r Hr).
  unfold number_taken, where_eq in E. simpl in E.
  rewrite bool_decide_eq_true_2 in E by exact Hnum. discriminate.
Qed.

(** A create in one tenant, whatever its outcome, leaves the tables of
    every other tenant as they were, and so does not change what the
    number gate or a create in another tenant does. *)
Lemma create_in_other_tenant tenantId tenantId' dto dto' w r w' :
  tenantId' ≠ tenantId →
  createEstimate reliable calcAmount formatDate tenantId dto w = (r, w') →
  storage w' tenantId' = storage w tenantId'
  ∧ (∀ n ex,
       fst (validateEstimateNumberExistance reliable tenantId' n ex w')
       = fst (validateEstimateNumberExistance reliable tenantId' n ex w))
  ∧ (steady w →
     fst (createEstimate reliable calcAmount formatDate tenantId' dto' w')
     = fst (createEstimate reliable calcAmount formatDate tenantId' dto' w)).
Proof.
  intros Hne H.
  apply createEstimate_inv in H as (Hc & Ho & _).
  split; [apply Ho, Hne|]. split.
  - intros [n|] ex; [|reflexivity].
    rewrite !validateEstimateNumberExistance_run. simpl.
    rewrite (Ho _ Hne). reflexivity.
  - intros Hs. apply createEstimate_tenant_local; [apply Ho, Hne| |exact Hs].
    intros n. rewrite Hc. apply Hs.
Qed.

(** An edit that keeps the document's own number passes the gate, and so
    does not fail with the duplicate error, provided no other document of
    the tenant carries that number. *)
Lemma edit_keeps_own_number tenantId estimateId dto n w r :
  Forall (λ r, rid r ≠ 0) (SaleEstimate (storage w tenantId)) →
  r ∈ SaleEstimate (storage w tenantId) →
  rid r = estimateId →
  cols r !! "estimate_number" = Some n →
  root dto !! "estimate_number" = Some n →
  (∀ r', r' ∈ SaleEstimate (storage w tenantId) →
         cols r' !! "estimate_number" = Some n →
         rid r' = estimateId) →
  fst (validateEstimateNumberExistance reliable tenantId
         (root dto !! "estimate_number") (Some estimateId) w) = Ok tt
  ∧ thrown (editEstimate reliable calcAmount formatDate tenantId estimateId
              dto w) ≠ Some duplicate_number.
Proof.
  intros Hids Hr Hrid Hnum Hn Huniq.
  assert (Hfind : ∀ w1, storage w1 = storage w →
            find (number_taken n (Some estimateId))
                 (SaleEstimate (storage w1 tenantId)) = None).
  { intros w1 ->. apply find_is_None. intros r' Hr'.
    rewrite Forall_forall in Hids.
    apply not_true_is_false. intros Ht.
    apply number_taken_spec in Ht as [Hn' Hex]; [|auto].
    apply Hex. f_equal. apply Huniq; assumption. }
  rewrite Hn. split.
  { rewrite validateEstimateNumberExistance_run, Hfind by reflexivity.
    reflexivity. }
  unfold thrown.
  destruct (editEstimate _ _ _ _ _ _ w) as [[g|e] w'] eqn:H; simpl;
    [discriminate|].
  intros [= ->]. revert H. unfold editEstimate. rewrite Hn. intros H.
  apply bind_inv in H as [(old & w1 & H1 & H)|(e & H1 & [= <-])].
  2: { eapply getSaleEstimateOrThrowError_not_duplicate in H1.
       apply H1. reflexivity. }
  framed H1 Es Ed Ec.
  apply bind_inv in H as [(a & w2 & H2 & H)|(e & H2 & [= <-])].
  2: { rewrite validateEstimateNumberExistance_run, Hfind in H2 by exact Es.
       discriminate. }
  assert (T : throws_only not_duplicate
    (await_ getCustomer reliable tenantId (root dto !! "customer_id") in
     await_ validateEntriesIdsExistance reliable tenantId estimateId
              "SaleEstiamte" (entries dto) in
     await_ validateItemsIdsExistance reliable tenantId (entries dto) in
     await_ validateNonSellableEntriesItems reliable tenantId
              (entries dto) in
     await saleEstimate := write_graph reliable tenantId
              (edit_graph calcAmount formatDate estimateId dto) in
     await_ dispatch onEdited
              (Some [("tenantId", PNum tenantId);
                     ("estimateId", PNum estimateId);
                     ("saleEstimate", PGraph saleEstimate);
                     ("oldSaleEstimate", PRow (to_obj old))]) in
     ret saleEstimate)).
  { apply throws_only_bind; [apply getCustomer_not_duplicate|intros _].
    apply throws_only_bind;
      [apply validateEntriesIdsExistance_not_duplicate|intros _].
    apply throws_only_bind;
      [apply validateItemsIdsExistance_not_duplicate|intros _].
    apply throws_only_bind;
      [apply validateNonSellableEntriesItems_not_duplicate|intros _].
    apply throws_only_bind; [apply write_graph_not_duplicate|intros g].
    apply throws_only_bind; [apply throws_only_dispatch|intros _].
    apply throws_only_ret. }
  apply T in H. apply H. reflexivity.
Qed.

End Uniqueness.

(** C3. On reliable storage and with auto-assigned (non-zero) keys:
    (1) called with a number, the uniqueness gate raises
    SALE_ESTIMATE_NUMBER_EXISTANCE exactly when some document of the
    tenant other than the excluded id carries the number, and passes
    otherwise; (2) after a successful create, a second create with the
    same number in the same tenant fails with that error; (3) a create in
    one tenant, whatever its outcome, leaves the tables of every other
    tenant as they were, so the gate decides there as before and a create
    with the same number there does what it would have done before (when
    the storage breaks off no graph write); (4) an edit of a stored document that keeps
    the number the document carries passes the gate, which excludes the
    document's own id, and does not fail with the duplicate error, as long
    as no other document carries that number. (5) Called without a
    number, the gate raises no duplicate error: the query builder throws
    before the storage is asked. *)
Theorem estimate_number_uniqueness (calcAmount : obj → Z)
    (formatDate : val → val) :
  (∀ tenantId n ex w,
     Forall (λ r, rid r ≠ 0) (SaleEstimate (storage w tenantId)) →
     let taken := ∃ r, r ∈ SaleEstimate (storage w tenantId)
                       ∧ cols r !! "estimate_number" = Some n
                       ∧ Some (rid r) ≠ ex in
     (taken →
      fst (validateEstimateNumberExistance reliable tenantId (Some n) ex w)
      = Throw duplicate_number)
     ∧ (¬ taken →
        fst (validateEstimateNumberExistance reliable tenantId (Some n)
               ex w) = Ok tt))
  ∧ (∀ tenantId dto dto' n w g w',
       root dto !! "estimate_number" = Some n →
       root dto' !! "estimate_number" = Some n →
       createEstimate reliable calcAmount formatDate tenantId dto w
       = (Ok g, w') →
       fst (createEstimate reliable calcAmount formatDate tenantId dto' w')
       = Throw duplicate_number)
  ∧ (∀ tenantId tenantId' dto dto' w r w',
       tenantId' ≠ tenantId →
       createEstimate reliable calcAmount formatDate tenantId dto w
       = (r, w') →
       storage w' tenantId' = storage w tenantId'
       ∧ (∀ n ex,
            fst (validateEstimateNumberExistance reliable tenantId' n ex w')
            = fst (validateEstimateNumberExistance reliable tenantId' n ex
                     w))
       ∧ (steady w →
          fst (createEstimate reliable calcAmount formatDate tenantId' dto'
                 w')
          = fst (createEstimate reliable calcAmount formatDate tenantId'
                   dto' w)))
  ∧ (∀ tenantId estimateId dto n w r,
       Forall (λ r, rid r ≠ 0) (SaleEstimate (storage w tenantId)) →
       r ∈ SaleEstimate (storage w tenantId) →
       rid r = estimateId →
       cols r !! "estimate_number" = Some n →
       root dto !! "estimate_number" = Some n →
       (∀ r', r' ∈ SaleEstimate (storage w tenantId) →
              cols r' !! "estimate_number" = Some n →
              rid r' = estimateId) →
       fst (validateEstimateNumberExistance reliable tenantId
              (root dto !! "estimate_number") (Some estimateId) w) = Ok tt
       ∧ thrown (editEstimate reliable calcAmount formatDate tenantId
                   estimateId dto w) ≠ Some duplicate_number)
  ∧ (∀ outage tenantId ex w,
       validateEstimateNumberExistance outage tenantId None ex w
       = (Throw UndefinedBinding, w)).
Proof.
  split; [|split; [|split; [|split]]].
  - intros. apply number_gate_spec. assumption.
  - intros tenantId dto dto' n w g w' Hn Hn' H.
    exact (second_create_fails calcAmount formatDate tenantId dto dto' n
             w g w' Hn Hn' H).
  - intros tenantId tenantId' dto dto' w r w' Hne H.
    exact (create_in_other_tenant calcAmount formatDate tenantId tenantId'
             dto dto' w r w' Hne H).
  - intros tenantId estimateId dto n w r Hids Hr Hrid Hnum Hn Huniq.
    exact (edit_keeps_own_number calcAmount formatDate tenantId estimateId
             dto n w r Hids Hr Hrid Hnum Hn Huniq).
  - reflexivity.
Qed.

(** C3 at the sample tenant: the gate finds E1 taken in tenant 1 after
    the create, a second create of E1 there fails, the create of E1 in
    tenant 2 succeeds as it would have before, and an edit of document 1
    that keeps E1 passes the gate. *)
Lemma estimate_number_uniqueness_witness :
  fst (validateEstimateNumberExistance reliable 1 (Some (VStr "E1")) None
         world_E1) = Throw duplicate_number
  ∧ fst (createEstimate reliable quantity_rate id 1 estimate_E1 world_E1)
    = Throw duplicate_number
  ∧ fst (createEstimate reliable quantity_rate id 2 estimate_E1 world_E1)
    = fst (createEstimate reliable quantity_rate id 2 estimate_E1
             fresh_world)
  ∧ is_Some (returned (createEstimate reliable quantity_rate id 2
                         estimate_E1 world_E1))
  ∧ fst (validateEstimateNumberExistance reliable 1 (Some (VStr "E1"))
           (Some 1) world_E1) = Ok tt.
Proof.
  destruct (estimate_number_uniqueness quantity_rate id)
    as (Hgate & Hsecond & Hother & Hedit & _).
  assert (Hids : Forall (λ r, rid r ≠ 0) (SaleEstimate (storage world_E1 1))).
  { vm_compute. repeat constructor. discriminate. }
  assert (Hrow : Row 1 (<["amount" := VNum 100]> (root estimate_E1))
                 ∈ SaleEstimate (storage world_E1 1)).
  { vm_compute. left. }
  assert (Hrun : createEstimate reliable quantity_rate id 1 estimate_E1
                   fresh_world
                 = (fst (createEstimate reliable quantity_rate id 1
                           estimate_E1 fresh_world), world_E1)).
  { apply surjective_pairing. }
  assert (Hok : is_Some (returned (createEstimate reliable quantity_rate id 1
                                     estimate_E1 fresh_world))).
  { vm_compute. eauto. }
  unfold returned in Hok.
  destruct (fst (createEstimate reliable quantity_rate id 1 estimate_E1
                   fresh_world)) as [g|e] eqn:Eg;
    [clear Hok|destruct Hok; discriminate].
  split; [|split; [|split; [|split]]].
  - apply (Hgate 1 (VStr "E1") None world_E1 Hids).
    eexists. split; [exact Hrow|]. split; [reflexivity|discriminate].
  - apply (Hsecond 1 estimate_E1 estimate_E1 (VStr "E1") fresh_world g
             world_E1); [reflexivity|reflexivity|exact Hrun].
  - apply (Hother 1 2 estimate_E1 estimate_E1 fresh_world (Ok g) world_E1);
      [discriminate|exact Hrun|intros n; reflexivity].
  - vm_compute. eauto.
  - apply (Hedit 1 1 estimate_E1 (VStr "E1") world_E1 _ Hids Hrow eq_refl
             eq_refl eq_refl).
    intros r' Hr' _. revert Hr'. vm_compute.
    intros Hr'. apply list_elem_of_singleton in Hr'. subst. reflexivity.
Defined.

(** ** deleteEstimate *)

(** The tables of a tenant once the entries of a document are deleted, and
    once the document row is deleted too. *)
Lemma deleteEstimate_run outage tenantId estimateId w r :
  findById (SaleEstimate (storage w tenantId)) estimateId = Some r →
  deleteEstimate outage tenantId estimateId w
  = if outage (calls w) then (Throw StorageError, tick w)
    else if outage (S (calls w)) then (Throw StorageError, tick (tick w))
    else
      let st1 := set_db (storage w) tenantId
                   (entries_deleted estimateId (storage w tenantId)) in
      if outage (S (S (calls w)))
      then (Throw StorageError,
            World st1 (dispatched w) (S (S (S (calls w)))) (cut w))
      else (Ok tt,
            World (set_db st1 tenantId
                     (document_deleted estimateId
                        (entries_deleted estimateId (storage w tenantId))))
                  (dispatched w
                   ++ [(onDeleted,
                        Some [("tenantId", PNum tenantId);
                              ("saleEstimateId", PNum estimateId);
                              ("oldSaleEstimate", PRow (to_obj r))])])
                  (S (S (S (calls w)))) (cut w)).
Proof.
  intros Hr.
  unfold deleteEstimate, getSaleEstimateOrThrowError, bind, read, write,
    dispatch, ret, throw.
  destruct (outage (calls w)); [reflexivity|]. rewrite Hr. simpl.
  destruct (outage (S (calls w))); [reflexivity|]. simpl.
  destruct (outage (S (S (calls w)))); [reflexivity|]. simpl.
  rewrite set_db_same. reflexivity.
Qed.

Lemma findById_filter_ne t i :
  findById (filter (λ r, rid r ≠ i) t) i = None.
Proof.
  apply find_is_None. intros r Hr.
  apply list_elem_of_filter in Hr as [Hne _].
  apply bool_decide_eq_false. exact Hne.
Qed.

Lemma filter_belongs_deleted i ty t :
  filter (λ r, belongs i ty r) (filter (λ r, negb (belongs i ty r)) t) = [].
Proof.
  induction t as [|r t IH]; [reflexivity|].
  rewrite (filter_cons (λ r, negb (belongs i ty r))).
  destruct (belongs i ty r) eqn:E; simpl.
  - exact IH.
  - rewrite filter_cons, E. simpl. exact IH.
Qed.

(** C4. For every existing document id, on reliable storage,
    [deleteEstimate] returns after removing every entry whose
    (reference_id, reference_type) pair is (id, 'SaleEstimate') and no
    other entry, and the documents with that id and no other document;
    afterwards [getEstimate] on the id fails with SALE_ESTIMATE_NOT_FOUND
    and the query for the entries of that pair is empty. *)
Theorem deleteEstimate_removes tenantId estimateId w :
  is_Some (findById (SaleEstimate (storage w tenantId)) estimateId) →
  ∃ w',
    deleteEstimate reliable tenantId estimateId w = (Ok tt, w')
    ∧ ItemEntry (storage w' tenantId)
      = filter (λ r, negb (belongs estimateId "SaleEstimate" r))
               (ItemEntry (storage w tenantId))
    ∧ SaleEstimate (storage w' tenantId)
      = filter (λ r, rid r ≠ estimateId) (SaleEstimate (storage w tenantId))
    ∧ getEstimate reliable tenantId estimateId w'
      = (Throw (ServiceError ERRORS.SALE_ESTIMATE_NOT_FOUND []), tick w')
    ∧ filter (λ r, belongs estimateId "SaleEstimate" r)
             (ItemEntry (storage w' tenantId)) = []
    ∧ fetch_entries (storage w' tenantId) estimateId = [].
Proof.
  intros [r Hr]. eexists. split.
  { rewrite (deleteEstimate_run _ _ _ _ r Hr). reflexivity. }
  simpl storage. rewrite set_db_same. simpl.
  split; [reflexivity|]. split; [reflexivity|].
  split; [|split].
  - unfold getEstimate, bind, read, reliable. simpl.
    rewrite set_db_same. simpl. rewrite findById_filter_ne. reflexivity.
  - apply filter_belongs_deleted.
  - unfold fetch_entries. simpl. rewrite filter_belongs_deleted.
    reflexivity.
Qed.

(** C4 at document 1 of tenant 1 in [world_E1]. *)
Lemma deleteEstimate_removes_witness :
  ∃ w',
    deleteEstimate reliable 1 1 world_E1 = (Ok tt, w')
    ∧ SaleEstimate (storage w' 1) = []
    ∧ ItemEntry (storage w' 1) = []
    ∧ thrown (getEstimate reliable 1 1 w')
      = Some (ServiceError ERRORS.SALE_ESTIMATE_NOT_FOUND []).
Proof.
  destruct (deleteEstimate_removes 1 1 world_E1)
    as (w' & Hrun & He & Hd & Hget & _).
  - vm_compute. eauto.
  - exists w'. split; [exact Hrun|].
    split; [rewrite Hd; vm_compute; reflexivity|].
    split; [rewrite He; vm_compute; reflexivity|].
    unfold thrown. rewrite Hget. reflexivity.
Defined.

(** C5, as amended. [deleteEstimate] issues, after reading the document,
    the entry deletion and the document deletion as two storage writes in
    that order. For an existing document: if the read or the entry
    deletion is rejected, the method throws and no table has changed; if
    both writes are accepted, the entries and the document are gone and
    the deleted event is dispatched; if the document deletion is rejected
    after the entry deletion was accepted, the method throws, the entries
    stay deleted and the estimates table is as it was. No other tenant is
    touched in any case. *)
Theorem deleteEstimate_two_writes outage tenantId estimateId w r :
  findById (SaleEstimate (storage w tenantId)) estimateId = Some r →
  let run := deleteEstimate outage tenantId estimateId w in
  let d := storage w tenantId in
  let d' := storage (snd run) tenantId in
  (∀ t, t ≠ tenantId → storage (snd run) t = storage w t)
  ∧ if outage (calls w) || outage (S (calls w)) then
      fst run = Throw StorageError
      ∧ storage (snd run) = storage w
      ∧ dispatched (snd run) = dispatched w
    else if outage (S (S (calls w))) then
      fst run = Throw StorageError
      ∧ ItemEntry d'
        = filter (λ r, negb (belongs estimateId "SaleEstimate" r))
                 (ItemEntry d)
      ∧ SaleEstimate d' = SaleEstimate d
      ∧ dispatched (snd run) = dispatched w
    else
      fst run = Ok tt
      ∧ ItemEntry d'
        = filter (λ r, negb (belongs estimateId "SaleEstimate" r))
                 (ItemEntry d)
      ∧ SaleEstimate d'
        = filter (λ r, rid r ≠ estimateId) (SaleEstimate d)
      ∧ dispatched (snd run)
        = dispatched w
          ++ [(onDeleted,
               Some [("tenantId", PNum tenantId);
                     ("saleEstimateId", PNum estimateId);
                     ("oldSaleEstimate", PRow (to_obj r))])].
Proof.
  intros Hr run d d'. subst run d d'.
  rewrite (deleteEstimate_run outage _ _ _ r Hr).
  destruct (outage (calls w)); simpl; [auto|].
  destruct (outage (S (calls w))); simpl; [auto|].
  destruct (outage (S (S (calls w)))); simpl;
    rewrite ?set_db_same; simpl;
    (split; [intros t Ht; rewrite ?set_db_other by exact Ht; reflexivity|]);
    auto.
Qed.

(** The amended C5 at document 1 of tenant 1 in [world_E1], whose run
    makes the storage calls 5, 6 and 7, with the last one rejected. *)
Lemma deleteEstimate_two_writes_witness :
  fst (deleteEstimate (λ n, bool_decide (n = 7%nat)) 1 1 world_E1)
  = Throw StorageError
  ∧ SaleEstimate
      (storage (snd (deleteEstimate (λ n, bool_decide (n = 7%nat)) 1 1
                       world_E1)) 1)
    = SaleEstimate (storage world_E1 1).
Proof.
  destruct (deleteEstimate_two_writes (λ n, bool_decide (n = 7%nat)) 1 1
              world_E1 (Row 1 (<["amount" := VNum 100]> (root estimate_E1)))
              eq_refl) as [_ H].
  change (calls world_E1) with 5%nat in H. simpl in H.
  destruct H as (Hthrow & _ & Hdoc & _). split; assumption.
Defined.

(** C5, as stated, fails. Document 1 of tenant 1 has one entry in
    [world_E1]. When the storage rejects the document deletion (the call
    number 7), [deleteEstimate] throws, and a read that follows finds the
    document still there and its entries gone. *)
Lemma deleteEstimate_partial_state :
  (length ∘ entries ∘ fst <$> returned (getEstimate reliable 1 1 world_E1))
  = Some 1%nat
  ∧ thrown (deleteEstimate (λ n, bool_decide (n = 7%nat)) 1 1 world_E1)
    = Some StorageError
  ∧ (length ∘ entries ∘ fst
       <$> returned (getEstimate reliable 1 1
                       (snd (deleteEstimate (λ n, bool_decide (n = 7%nat))
                               1 1 world_E1))))
    = Some 0%nat.
Proof. repeat split; vm_compute; reflexivity. Qed.

(** ** The rows a create adds *)

Section CreatedRows.
Context (outage : nat → bool).
Context (calcAmount : obj → Z) (formatDate : val → val).

Lemma insert_children_no_ids docId next cs :
  Forall (λ c : obj, c !! "id" = None) cs →
  insert_children docId next cs
  = imap (λ j c, Row (next + Z.of_nat j)
                     (<["reference_id" := VNum docId]> c)) cs.
Proof.
  intros H. revert next. induction H as [|c cs Hc _ IH]; intros next.
  - reflexivity.
  - cbn [insert_children]. rewrite Hc, imap_cons, IH. f_equal.
    + f_equal. lia.
    + apply imap_ext. intros j x _. simpl. f_equal. lia.
Qed.

Lemma create_graph_no_ids dto :
  Forall (λ c : obj, c !! "id" = None)
         (entries (create_graph calcAmount formatDate dto)).
Proof.
  apply Forall_forall. intros c Hc.
  apply list_elem_of_lookup in Hc as [i Hi].
  rewrite create_graph_entry in Hi.
  destruct (entries dto !! i) as [e|]; [|discriminate].
  injection Hi as <-. apply (lookup_written_entry e ["total"; "amount"; "id"]).
Qed.

(** The tables and the returned graph of a successful create, for a DTO
    without an id of its own: one estimate row under the next key of the
    estimates table, holding the root of the written graph, and one entry
    row per entry of the DTO, in their order, under the next keys of the
    entries table and with the new document as reference. *)
Lemma createEstimate_inserted tenantId dto w g w' :
  root dto !! "id" = None →
  createEstimate outage calcAmount formatDate tenantId dto w = (Ok g, w') →
  let d := storage w tenantId in
  let d' := storage w' tenantId in
  let docId := next_key (SaleEstimate_seq d) (SaleEstimate d) in
  let next := next_key (ItemEntry_seq d) (ItemEntry d) in
  let cg := create_graph calcAmount formatDate dto in
  SaleEstimate d' = SaleEstimate d ++ [Row docId (root cg)]
  ∧ ItemEntry d'
    = ItemEntry d
      ++ imap (λ j c, Row (next + Z.of_nat j)
                          (<["reference_id" := VNum docId]> c))
              (entries cg)
  ∧ Item d' = Item d
  ∧ Customer d' = Customer d
  ∧ g = fetch_graph d' (Row docId (root cg)).
Proof.
  intros Hid H d d' docId next cg. subst d'.
  apply createEstimate_inv in H as (_ & _ & _ & d1 & Hu & -> & _).
  rewrite set_db_same. revert Hu.
  rewrite upsertGraphAndFetch_insert; cycle 1.
  { change (root (create_graph calcAmount formatDate dto))
      with (root (estimateObj calcAmount formatDate dto)).
    rewrite lookup_estimateObj, Hid by set_solver.
    rewrite decide_False by discriminate. reflexivity. }
  destruct (forallb _ _); [|discriminate].
  cbn zeta. intros [= <- <-].
  cbn [insert_entries insert_root SaleEstimate ItemEntry Item Customer
       SaleEstimate_seq ItemEntry_seq].
  rewrite insert_children_no_ids by apply create_graph_no_ids.
  repeat split; reflexivity.
Qed.

(** So the stored amount of a created document is the sum of the computed
    entry amounts whenever the DTO has no [amount] (and no [id]) of its
    own. *)
Lemma created_amount_is_the_sum tenantId dto w g w' :
  root dto !! "id" = None →
  root dto !! "amount" = None →
  createEstimate outage calcAmount formatDate tenantId dto w = (Ok g, w') →
  ∃ r, last (SaleEstimate (storage w' tenantId)) = Some r
       ∧ cols r !! "amount" = Some (VNum (sumBy (entries dto) calcAmount)).
Proof.
  intros Hid Ham H.
  destruct (createEstimate_inserted _ _ _ _ _ Hid H) as [-> _].
  eexists. split; [apply last_snoc|]. simpl.
  apply (written_amount_computed calcAmount formatDate 0 dto Ham).
Qed.

End CreatedRows.

(** ** estimatesList *)

Section Listing.
Context (buildQuery : obj → list record → list record).
Context (getResponseMeta : obj → obj).

Lemma estimatesList_run tenantId f w :
  estimatesList reliable buildQuery getResponseMeta tenantId f w
  = (Ok (EstimatesList
           (fst (pagination (filter_page f - 1) (filter_pageSize f)
                   (listed buildQuery (storage w tenantId)
                      (conditions f))))
           (snd (pagination (filter_page f - 1) (filter_pageSize f)
                   (listed buildQuery (storage w tenantId)
                      (conditions f))))
           (getResponseMeta (conditions f))),
     tick w).
Proof. reflexivity. Qed.

(** The page [p + 1] of size [N] is the [p]-th block of [N] rows. *)
Lemma pagination_slice {A} (p N : nat) (rows : list A) :
  fst (pagination (Z.of_nat p + 1 - 1) (Z.of_nat N) rows)
  = take N (drop (p * N) rows).
Proof.
  unfold pagination; simpl.
  replace (Z.to_nat ((Z.of_nat p + 1 - 1) * Z.of_nat N)) with (p * N)%nat
    by lia.
  rewrite Nat2Z.id. reflexivity.
Qed.

(** C9. [estimatesList] hands the storage pagination the page of the
    filter minus one and the page size unchanged, and returns the result
    page with the pagination metadata and the filter metadata. With the
    pagination of the specification, the page [p + 1] of size [N] is the
    block of the [N] rows after the first [p * N] of the ordered result,
    and its metadata carries the page number of the request; so page 1
    has at most [N] results and is the first block, page 2 is the next
    block, and the two together are the first [2 * N] rows: no overlap
    and no gap. *)
Theorem estimatesList_pages tenantId (c : obj) (p N : nat) w :
  let rows := listed buildQuery (storage w tenantId) c in
  let list_page (k : nat) (w : world) :=
    returned (estimatesList reliable buildQuery getResponseMeta tenantId
                (EstimatesFilter c (Z.of_nat k + 1) (Z.of_nat N)) w) in
  (∀ f w,
     estimatesList reliable buildQuery getResponseMeta tenantId f w
     = (Ok (EstimatesList
              (fst (pagination (filter_page f - 1) (filter_pageSize f)
                      (listed buildQuery (storage w tenantId)
                      (conditions f))))
              (snd (pagination (filter_page f - 1) (filter_pageSize f)
                      (listed buildQuery (storage w tenantId)
                      (conditions f))))
              (getResponseMeta (conditions f))),
        tick w))
  ∧ (salesEstimates <$> list_page p w) = Some (take N (drop (p * N) rows))
  ∧ (list_pagination <$> list_page p w)
    = Some (PaginationMeta (Z.of_nat (length rows)) (Z.of_nat p + 1)
              (Z.of_nat N))
  ∧ (filterMeta <$> list_page p w) = Some (getResponseMeta c)
  ∧ ∃ page1 page2,
      (salesEstimates <$> list_page 0%nat w) = Some page1
      ∧ (salesEstimates <$> list_page 1%nat (tick w)) = Some page2
      ∧ (length page1 ≤ N)%nat
      ∧ page1 = take N rows
      ∧ page2 = take N (drop N rows)
      ∧ page1 ++ page2 = take (N + N) rows.
Proof.
  intros rows list_page. split; [reflexivity|].
  assert (Hpage : ∀ k w', storage w' tenantId = storage w tenantId →
            (salesEstimates <$> list_page k w')
            = Some (take N (drop (k * N) rows))).
  { intros k w' E. subst list_page rows. unfold returned.
    rewrite estimatesList_run. cbn [fst fmap option_fmap option_map
      salesEstimates]. f_equal.
    change (filter_page (EstimatesFilter c (Z.of_nat k + 1) (Z.of_nat N)))
      with (Z.of_nat k + 1).
    change (filter_pageSize (EstimatesFilter c (Z.of_nat k + 1)
                               (Z.of_nat N)))
      with (Z.of_nat N).
    rewrite pagination_slice. unfold listed. rewrite E. reflexivity. }
  split; [apply Hpage; reflexivity|].
  split.
  { subst list_page rows. unfold returned. rewrite estimatesList_run.
    cbn. unfold listed. cbn.
    replace (Z.of_nat p + 1 - 1 + 1) with (Z.of_nat p + 1) by lia.
    reflexivity. }
  split; [reflexivity|].
  exists (take N rows), (take N (drop N rows)).
  split; [apply (Hpage 0%nat w); reflexivity|].
  split.
  { rewrite (Hpage 1%nat (tick w)) by reflexivity.
    rewrite Nat.mul_1_l. reflexivity. }
  split; [rewrite length_take; lia|].
  split; [reflexivity|]. split; [reflexivity|].
  apply take_take_drop.
Qed.

End Listing.

(** ** deleteBill *)

(** When the request succeeds, the store update is dispatched and the
    promise resolves with the response. *)
Lemma deleteBill_fulfilled id r :
  Bills.deleteBill id (Bills.Fulfilled r)
  = ([Bills.BILL_DELETE id], Bills.Resolved r).
Proof. reflexivity. Qed.

(** When the request fails with an error that carries a response with a
    body, nothing is dispatched and the promise rejects with the errors
    of the body, or with the empty list; never with [undefined]. *)
Lemma deleteBill_failed_with_body id s d :
  let e := Bills.RequestError (Some (Bills.Response s (Some d))) in
  fst (Bills.deleteBill id (Bills.Failed e)) = []
  ∧ snd (Bills.deleteBill id (Bills.Failed e))
    = Bills.Rejected (Bills.js_or (Bills.errors d) (Bills.JArray []))
  ∧ Bills.js_or (Bills.errors d) (Bills.JArray []) ≠ Bills.JUndefined
  ∧ (Bills.errors d = Bills.JUndefined →
     snd (Bills.deleteBill id (Bills.Failed e))
     = Bills.Rejected (Bills.JArray [])).
Proof.
  simpl. repeat split.
  - unfold Bills.js_or.
    destruct (Bills.js_truthy (Bills.errors d)) eqn:E; [|discriminate].
    intros H. rewrite H in E. discriminate.
  - intros ->. reflexivity.
Qed.

(** No failing request makes [deleteBill] dispatch. *)
Lemma deleteBill_failed_dispatches_nothing id e :
  fst (Bills.deleteBill id (Bills.Failed e)) = [].
Proof.
  unfold Bills.deleteBill.
  destruct (Bills.response_data_errors e); reflexivity.
Qed.

(** C10, at the input where it fails. A request that fails without a
    response (no connection, timeout) rejects with an error whose
    [response] is undefined. The catch callback then throws while it
    reads [error.response.data], before it calls [reject]: nothing is
    dispatched, and the promise [deleteBill] returned is neither rejected
    nor resolved. The same happens for a response without a body. *)
Theorem deleteBill_without_response (id : Z) :
  Bills.deleteBill id (Bills.Failed (Bills.RequestError None))
  = ([], Bills.Pending)
  ∧ ∀ s, Bills.deleteBill id
           (Bills.Failed (Bills.RequestError
                            (Some (Bills.Response s None))))
         = ([], Bills.Pending).
Proof. split; reflexivity. Qed.

(** * Further properties of the bill actions *)

(** X1. [deleteBill] dispatches the store update exactly when the request
    succeeded, and then resolves with the response; on a failed request it
    dispatches nothing, and whenever its promise is rejected the value it
    is rejected with is truthy: the errors of the response, or the empty
    list. *)
Theorem deleteBill_dispatch_and_rejection (id : Z) (req : Bills.request) :
  (fst (Bills.deleteBill id req) = [Bills.BILL_DELETE id]
   ↔ ∃ r, req = Bills.Fulfilled r)
  ∧ (fst (Bills.deleteBill id req) = [] ↔ ∃ e, req = Bills.Failed e)
  ∧ (∀ r, snd (Bills.deleteBill id req) = Bills.Resolved r
          ↔ req = Bills.Fulfilled r)
  ∧ (∀ why, snd (Bills.deleteBill id req) = Bills.Rejected why →
            Bills.js_truthy why = true
            ∧ ∃ e, req = Bills.Failed e
                   ∧ (why = Bills.JArray []
                      ∨ Bills.response_data_errors e = Some why)).
Proof.
  destruct req as [r|e]; simpl.
  - do 3 (split; [naive_solver|]). discriminate.
  - destruct (Bills.response_data_errors e) as [errs|] eqn:E; simpl;
      do 3 (split; [naive_solver|]); [|discriminate].
    intros why [= <-]. unfold Bills.js_or.
    destruct (Bills.js_truthy errs) eqn:T; naive_solver.
Qed.

Section BillsTable.
Import BillActions.

(** X2. [fetchBillsTable] always begins by dispatching the loading flag,
    and it dispatches the flag's reset exactly when its promise resolves.
    Case by case: after a failed request it has dispatched
    [BILLS_TABLE_LOADING true] and nothing else, and rejects with the
    error of the request itself; after a response without a body or
    without [data.bills] it has dispatched [BILLS_TABLE_LOADING true] and
    nothing else, and rejects with the TypeError of the callback; after a
    response with [data.bills] it has dispatched the flag, the three
    updates of the page and the reset of the flag, in that order, and
    resolves with the response. The promise is settled in every case, and
    the params of the request are the table query of the state overridden
    by the explicit query. *)
Theorem fetchBillsTable_loading (query pageQuery : option obj)
    (req : request table_response) :
  let run := fetchBillsTable query pageQuery req in
  head (snd (fst run)) = Some (BILLS_TABLE_LOADING true)
  ∧ (BILLS_TABLE_LOADING false ∈ snd (fst run) ↔ ∃ r, snd run = Resolved r)
  ∧ snd run ≠ Pending
  ∧ (∀ e, req = Failed e →
       snd (fst run) = [BILLS_TABLE_LOADING true]
       ∧ snd run = Rejected (RequestFailed e))
  ∧ (∀ response, req = Fulfilled response →
       (table_data response ≫= bills) = None →
       snd (fst run) = [BILLS_TABLE_LOADING true]
       ∧ snd run = Rejected ThrownTypeError)
  ∧ (∀ response data page', req = Fulfilled response →
       table_data response = Some data → bills data = Some page' →
       snd (fst run)
       = [BILLS_TABLE_LOADING true;
          BILLS_PAGE_SET (results page') (pagination page')
            (Bills.js_or (customViewId data) (Bills.JNum (-1)));
          BILLS_ITEMS_SET (results page');
          BILLS_PAGINATION_SET (pagination page')
            (Bills.js_or (customViewId data) (Bills.JNum (-1)));
          BILLS_TABLE_LOADING false]
       ∧ snd run = Resolved response)
  ∧ (∀ k, fst (fst run) !! k
          = match default ∅ query !! k with
            | Some v => Some v
            | None => default ∅ pageQuery !! k
            end).
Proof.
  intros run. subst run. unfold fetchBillsTable.
  assert (Hp : ∀ k, table_params query pageQuery !! k
                    = match default ∅ query !! k with
                      | Some v => Some v
                      | None => default ∅ pageQuery !! k
                      end)
    by (intros k; apply lookup_spread).
  assert (Hne : ¬ BILLS_TABLE_LOADING false ∈ [BILLS_TABLE_LOADING true]).
  { intros H. apply list_elem_of_singleton in H. discriminate. }
  destruct req as [response|e].
  - unfold table_loaded.
    destruct (table_data response) as [data|] eqn:Ed;
      [destruct (bills data) as [pg|] eqn:Eb|];
      simpl; (split; [reflexivity|]).
    + split; [split; [eauto|]|].
      { intros _. do 4 apply list_elem_of_further. apply list_elem_of_here. }
      split; [discriminate|]. split; [discriminate|].
      split; [intros r [= <-]; rewrite Ed; simpl; rewrite Eb; discriminate|].
      split; [|exact Hp].
      intros r data' page' [= <-] Hd Hb. rewrite Ed in Hd.
      injection Hd as <-. rewrite Eb in Hb. injection Hb as <-. auto.
    + split; [split; [intros H; destruct (Hne H)|intros [r [=]]]|].
      split; [discriminate|]. split; [discriminate|].
      split; [auto|]. split; [|exact Hp].
      intros r data' page' [= <-] Hd Hb. rewrite Ed in Hd.
      injection Hd as <-. rewrite Eb in Hb. discriminate.
    + split; [split; [intros H; destruct (Hne H)|intros [r [=]]]|].
      split; [discriminate|]. split; [discriminate|].
      split; [auto|]. split; [|exact Hp].
      intros r data' page' [= <-] Hd Hb. rewrite Ed in Hd. discriminate.
  - simpl. split; [reflexivity|].
    split; [split; [intros H; destruct (Hne H)|intros [r [=]]]|].
    split; [discriminate|].
    split; [intros e' [= ->]; auto|].
    split; [discriminate|]. split; [discriminate|exact Hp].
Qed.

(** X3. Whatever [fetchBillsTable] dispatches for a page agrees: the page
    update, the items update and the pagination update carry the bills and
    the pagination of the same response, they are dispatched together, and
    the custom view id they carry is never falsy: it is the one of the
    response when that is truthy, and -1 otherwise (so also for a view id
    of 0). *)
Theorem fetchBillsTable_page (query pageQuery : option obj)
    (req : request table_response) bs pg cv :
  BILLS_PAGE_SET bs pg cv ∈ snd (fst (fetchBillsTable query pageQuery req)) →
  BILLS_ITEMS_SET bs ∈ snd (fst (fetchBillsTable query pageQuery req))
  ∧ BILLS_PAGINATION_SET pg cv
      ∈ snd (fst (fetchBillsTable query pageQuery req))
  ∧ Bills.js_truthy cv = true
  ∧ ∃ response data page,
      req = Fulfilled response
      ∧ table_data response = Some data
      ∧ bills data = Some page
      ∧ bs = results page ∧ pg = pagination page
      ∧ cv = (if Bills.js_truthy (customViewId data)
              then customViewId data else Bills.JNum (-1)).
Proof.
  unfold fetchBillsTable, table_loaded.
  destruct req as [response|e]; [|intros H; set_solver].
  destruct (table_data response) as [data|] eqn:Ed; [|intros H; set_solver].
  destruct (bills data) as [page|] eqn:Eb; [|intros H; set_solver].
  simpl. intros H.
  assert (E : BILLS_PAGE_SET bs pg cv
              = BILLS_PAGE_SET (results page) (pagination page)
                  (Bills.js_or (customViewId data) (Bills.JNum (-1))))
    by set_solver.
  injection E as -> -> ->.
  split; [set_solver|]. split; [set_solver|]. split.
  - unfold Bills.js_or.
    destruct (Bills.js_truthy (customViewId data)) eqn:T; [exact T|].
    reflexivity.
  - exists response, data, page. repeat split; auto.
Qed.

(** X3 for a response whose custom view id is 0. *)
Lemma fetchBillsTable_page_witness :
  BILLS_ITEMS_SET []
    ∈ snd (fst (fetchBillsTable None None
                  (Fulfilled (TableResponse
                     (Some (TableBody (Some (BillsPage [] ∅))
                              (Bills.JNum 0)))))))
  ∧ BILLS_PAGINATION_SET ∅ (Bills.JNum (-1))
      ∈ snd (fst (fetchBillsTable None None
                    (Fulfilled (TableResponse
                       (Some (TableBody (Some (BillsPage [] ∅))
                                (Bills.JNum 0))))))).
Proof.
  destruct (fetchBillsTable_page None None
              (Fulfilled (TableResponse
                 (Some (TableBody (Some (BillsPage [] ∅)) (Bills.JNum 0)))))
              [] ∅ (Bills.JNum (-1)))
    as (H1 & H2 & _).
  - simpl. apply elem_of_cons. right. apply elem_of_cons. left. reflexivity.
  - split; assumption.
Defined.

(** X4. [fetchBill] dispatches [BILL_SET] exactly when the request
    succeeded with a body, and then resolves. On a failed request that
    carries a response it dispatches nothing and rejects with the [errors]
    of the body as they are, without a default: with [undefined] when the
    response has no body. Its promise is left pending, neither resolved
    nor rejected, exactly when the request failed without a response or
    succeeded without a body. *)
Theorem fetchBill_outcomes (id : Z) (req : request bill_response) :
  ((∃ b, fst (fetchBill id req) = [BILL_SET id b])
   ↔ ∃ d, req = Fulfilled (BillResponse (Some d)))
  ∧ (snd (fetchBill id req) = Pending
     ↔ req = Fulfilled (BillResponse None)
       ∨ ∃ e, req = Failed e ∧ Bills.error_response e = None)
  ∧ (∀ e r, req = Failed e → Bills.error_response e = Some r →
       fetchBill id req
       = ([], Rejected (Value (match Bills.data r with
                               | Some d => Bills.errors d
                               | None => Bills.JUndefined
                               end)))).
Proof.
  destruct req as [[[d|]]|[[r|]]]; simpl;
    (split; [naive_solver|]); (split; [naive_solver|]); naive_solver.
Qed.

End BillsTable.

(** X1 on a failed request whose response has no errors, X2 on a listing
    answered without a body and X4 on a failed fetch whose response has
    no body. *)
Lemma deleteBill_dispatch_and_rejection_witness :
  Bills.js_truthy (Bills.JArray []) = true
  ∧ ∃ e, Bills.Failed
           (Bills.RequestError
              (Some (Bills.Response 400 (Some (Bills.Body Bills.JUndefined)))))
         = Bills.Failed e.
Proof.
  destruct (deleteBill_dispatch_and_rejection 1
              (Bills.Failed
                 (Bills.RequestError
                    (Some (Bills.Response 400
                             (Some (Bills.Body Bills.JUndefined)))))))
    as (_ & _ & _ & H).
  destruct (H (Bills.JArray []) eq_refl) as (Ht & e & He & _).
  split; [exact Ht|]. exists e. exact He.
Defined.

Lemma fetchBillsTable_loading_witness :
  BillActions.fetchBillsTable None None
    (BillActions.Fulfilled (BillActions.TableResponse None))
  = (∅, [BillActions.BILLS_TABLE_LOADING true],
     BillActions.Rejected BillActions.ThrownTypeError).
Proof.
  destruct (fetchBillsTable_loading None None
              (BillActions.Fulfilled (BillActions.TableResponse None)))
    as (_ & _ & _ & _ & H & _).
  destruct (H _ eq_refl eq_refl) as [Ha Hp].
  rewrite (surjective_pairing (BillActions.fetchBillsTable _ _ _)).
  rewrite (surjective_pairing (fst (BillActions.fetchBillsTable _ _ _))).
  rewrite Ha, Hp. reflexivity.
Defined.

Lemma fetchBill_outcomes_witness :
  BillActions.fetchBill 1
    (BillActions.Failed
       (Bills.RequestError (Some (Bills.Response 500 None))))
  = ([], BillActions.Rejected (BillActions.Value Bills.JUndefined)).
Proof.
  destruct (fetchBill_outcomes 1
              (BillActions.Failed
                 (Bills.RequestError (Some (Bills.Response 500 None)))))
    as (_ & _ & H).
  apply (H _ (Bills.Response 500 None) eq_refl eq_refl).
Defined.

(** * Further properties of the sale estimate service *)

(** ** Reads *)

Lemma read_inv {A} outage tenantId (q : db → A) w r w' :
  read outage tenantId q w = (r, w') →
  w' = tick w
  ∧ (if outage (calls w) then r = Throw StorageError
     else r = Ok (q (storage w tenantId))).
Proof.
  unfold read. destruct (outage (calls w)); intros [= <- <-]; auto.
Qed.

Lemma getSaleEstimateOrThrowError_inv outage tenantId i w r w' :
  getSaleEstimateOrThrowError outage tenantId i w = (r, w') →
  w' = tick w
  ∧ match r with
    | Ok row => findById (SaleEstimate (storage w tenantId)) i = Some row
    | Throw e =>
        e = StorageError
        ∨ (e = ServiceError ERRORS.SALE_ESTIMATE_NOT_FOUND []
           ∧ findById (SaleEstimate (storage w tenantId)) i = None)
    end.
Proof.
  unfold getSaleEstimateOrThrowError, bind, read.
  destruct (outage (calls w)); [intros [= <- <-]; auto|].
  destruct (findById _ i) as [row|]; intros [= <- <-]; auto.
Qed.

(** ** editEstimate, step by step *)

Section EditEstimate.
Context (outage : nat → bool).
Context (calcAmount : obj → Z) (formatDate : val → val).

(** What a run of [editEstimate] did. If it returned, it had found the
    document, the graph write was applied in full to the tenant's tables
    as they were at the start, and the edited event was dispatched. If it
    threw, nothing was dispatched, and either no table has changed, or it
    is the graph write that was broken off. *)
Lemma editEstimate_inv tenantId estimateId dto w r w' :
  editEstimate outage calcAmount formatDate tenantId estimateId dto w
  = (r, w') →
  cut w' = cut w
  ∧ (∀ t, t ≠ tenantId → storage w' t = storage w t)
  ∧ match r with
    | Ok g =>
        ∃ old d',
          findById (SaleEstimate (storage w tenantId)) estimateId = Some old
          ∧ upsertGraphAndFetch
              (edit_graph calcAmount formatDate estimateId dto)
              (storage w tenantId) = Ok (g, d')
          ∧ storage w' = set_db (storage w) tenantId d'
          ∧ dispatched w'
            = dispatched w
              ++ [(onEdited,
                   Some [("tenantId", PNum tenantId);
                         ("estimateId", PNum estimateId);
                         ("saleEstimate", PGraph g);
                         ("oldSaleEstimate", PRow (to_obj old))])]
    | Throw e =>
        dispatched w' = dispatched w
        ∧ (storage w' = storage w
           ∨ (e = StorageError
              ∧ ∃ d', broken_off
                        (edit_graph calcAmount formatDate estimateId dto)
                        (storage w tenantId) d'
                      ∧ storage w' = set_db (storage w) tenantId d'))
    end.
Proof.
  unfold editEstimate. intros H.
  apply bind_inv in H as [(old & w0 & H0 & H)|(e & H0 & ->)].
  2: { apply getSaleEstimateOrThrowError_inv in H0 as [-> _].
       repeat split; auto. }
  apply getSaleEstimateOrThrowError_inv in H0 as [-> Hold].
  assert (Es : storage (tick w) = storage w) by reflexivity.
  assert (Ed : dispatched (tick w) = dispatched w) by reflexivity.
  assert (Ec : cut (tick w) = cut w) by reflexivity.
  revert H Es Ed Ec. generalize (tick w). intros w0 H Es Ed Ec.
  do 5 (apply bind_inv in H as [(? & w1 & H1 & H)|(e & H1 & ->)];
        [ framed H1 Es1 Ed1 Ec1;
          rewrite Es in Es1; rewrite Ed in Ed1; rewrite Ec in Ec1;
          clear Es Ed Ec w0;
          rename Es1 into Es, Ed1 into Ed, Ec1 into Ec, w1 into w0
        | framed H1 Es1 Ed1 Ec1; rewrite Es1, Es, Ed1, Ec1;
          repeat split; auto ]).
  apply bind_inv in H as [(g & wg & H5 & H)|(e & H5 & ->)].
  - apply write_graph_inv in H5 as (Ed' & Ec' & Ho & d' & Hq & Es').
    inversion H; subst; clear H. simpl. rewrite Es in *.
    split; [congruence|]. split; [exact Ho|].
    exists old, d'. rewrite Ed', Ed. auto.
  - apply write_graph_inv in H5 as (Ed' & Ec' & Ho & -> & Hs).
    rewrite Es in *.
    split; [congruence|]. split; [exact Ho|]. split; [congruence|].
    destruct Hs as [Hs|(d' & Hb & Hs)]; [left; congruence|].
    right. split; [reflexivity|]. eauto.
Qed.

End EditEstimate.

(** ** What a write returns is what a read finds *)

(** X5. When [createEstimate] or [editEstimate] returns a document, the
    document carries the key of a stored row, and [getEstimate] on that
    key, on storage that answers, returns the same document (root and
    entries), with the customer of the row attached. *)
Theorem written_document_is_found outage (calcAmount : obj → Z)
    (formatDate : val → val) tenantId dto :
  (∀ w g w',
     createEstimate outage calcAmount formatDate tenantId dto w = (Ok g, w') →
     ∃ r, root g = to_obj r
          ∧ getEstimate reliable tenantId (rid r) w'
            = (Ok (g, fetch_customer (storage w' tenantId) r), tick w'))
  ∧ (∀ estimateId w g w',
       editEstimate outage calcAmount formatDate tenantId estimateId dto w
       = (Ok g, w') →
       ∃ r, root g = to_obj r
            ∧ getEstimate reliable tenantId (rid r) w'
              = (Ok (g, fetch_customer (storage w' tenantId) r), tick w')).
Proof.
  assert (Hget : ∀ gr d g d' (w w' : world),
            upsertGraphAndFetch gr d = Ok (g, d') →
            storage w' = set_db (storage w) tenantId d' →
            ∃ r, root g = to_obj r
                 ∧ getEstimate reliable tenantId (rid r) w'
                   = (Ok (g, fetch_customer (storage w' tenantId) r),
                      tick w')).
  { intros gr d g d' w w' Hu Hs.
    apply upsertGraphAndFetch_found in Hu as (r & Hr & -> & _).
    exists r. split; [reflexivity|].
    unfold getEstimate, bind, read, reliable.
    rewrite Hs, set_db_same, Hr. reflexivity. }
  split.
  - intros w g w' H.
    apply createEstimate_inv in H as (_ & _ & _ & d' & Hu & Hs & _).
    eapply Hget; eassumption.
  - intros estimateId w g w' H.
    apply editEstimate_inv in H as (_ & _ & old & d' & _ & Hu & Hs & _).
    eapply Hget; eassumption.
Qed.

(** X5 at the creation of E1 for the sample tenant. *)
Lemma written_document_is_found_witness :
  ∃ g r,
    root g = to_obj r
    ∧ getEstimate reliable 1 (rid r) world_E1
      = (Ok (g, fetch_customer (storage world_E1 1) r), tick world_E1).
Proof.
  destruct (written_document_is_found reliable quantity_rate id 1
              estimate_E1) as [H _].
  destruct (createEstimate reliable quantity_rate id 1 estimate_E1
              fresh_world) as [[g|e] w'] eqn:E.
  - assert (Ew : w' = world_E1) by (unfold world_E1; rewrite E; reflexivity).
    destruct (H fresh_world g w' E) as (r & Hr & Hg).
    exists g, r. rewrite <- Ew. split; assumption.
  - exfalso.
    assert (N : thrown (createEstimate reliable quantity_rate id 1
                          estimate_E1 fresh_world) = None)
      by (vm_compute; reflexivity).
    unfold thrown in N. rewrite E in N. discriminate.
Defined.

(** ** Failing and succeeding edits *)

(** X6. [editEstimate] of an id that is not stored fails with
    SALE_ESTIMATE_NOT_FOUND after its first read, whatever the DTO. An
    edit that throws, for whatever reason and on whatever storage, has
    dispatched nothing and has touched no other tenant; when what it
    throws is not an error of the storage (a validation error, then), it
    has left all tables as they were. An edit that returns has found the
    document, has applied the whole graph write to the tenant's tables as
    they were at the start, and has dispatched exactly one event after
    it: [onEdited] with the tenant id, the estimate id, the returned
    document and the row as it was stored before the edit. *)
Theorem editEstimate_outcomes outage (calcAmount : obj → Z)
    (formatDate : val → val) tenantId estimateId dto w :
  (findById (SaleEstimate (storage w tenantId)) estimateId = None →
   outage (calls w) = false →
   editEstimate outage calcAmount formatDate tenantId estimateId dto w
   = (Throw (ServiceError ERRORS.SALE_ESTIMATE_NOT_FOUND []), tick w))
  ∧ (∀ e w',
       editEstimate outage calcAmount formatDate tenantId estimateId dto w
       = (Throw e, w') →
       dispatched w' = dispatched w
       ∧ (∀ t, t ≠ tenantId → storage w' t = storage w t)
       ∧ (e ≠ StorageError → storage w' = storage w))
  ∧ (∀ g w',
       editEstimate outage calcAmount formatDate tenantId estimateId dto w
       = (Ok g, w') →
       ∃ old d',
         findById (SaleEstimate (storage w tenantId)) estimateId = Some old
         ∧ upsertGraphAndFetch
             (edit_graph calcAmount formatDate estimateId dto)
             (storage w tenantId) = Ok (g, d')
         ∧ storage w' = set_db (storage w) tenantId d'
         ∧ dispatched w'
           = dispatched w
             ++ [(onEdited,
                  Some [("tenantId", PNum tenantId);
                        ("estimateId", PNum estimateId);
                        ("saleEstimate", PGraph g);
                        ("oldSaleEstimate", PRow (to_obj old))])]).
Proof.
  split; [|split].
  - intros Hnone Hup.
    unfold editEstimate, getSaleEstimateOrThrowError, bind, read.
    rewrite Hup, Hnone. reflexivity.
  - intros e w' H. apply editEstimate_inv in H as (_ & Ho & Hd & Hs).
    split; [exact Hd|]. split; [exact Ho|].
    intros He. destruct Hs as [Hs|[-> _]]; [exact Hs|congruence].
  - intros g w' H. apply editEstimate_inv in H as (_ & _ & H). exact H.
Qed.

(** X6 at an edit of the unknown document 5 of the sample tenant. *)
Lemma editEstimate_outcomes_witness :
  editEstimate reliable quantity_rate id 1 5 estimate_E1 world_E1
  = (Throw (ServiceError ERRORS.SALE_ESTIMATE_NOT_FOUND []), tick world_E1).
Proof.
  destruct (editEstimate_outcomes reliable quantity_rate id 1 5 estimate_E1
              world_E1) as [H _].
  apply H; reflexivity.
Defined.

(** ** The document a create returns *)

Lemma filter_all {A} (P : A → Prop) `{!∀ x, Decision (P x)} (l : list A) :
  (∀ x, x ∈ l → P x) → filter P l = l.
Proof.
  induction l as [|a l IH]; intros Hall; [reflexivity|].
  rewrite filter_cons_True by (apply Hall; left).
  rewrite IH; [reflexivity|]. intros x Hx. apply Hall. right. exact Hx.
Qed.

Section CreatedDocument.
Context (outage : nat → bool).
Context (calcAmount : obj → Z) (formatDate : val → val).

(** X7. The document a successful [createEstimate] returns, for a DTO
    that has no id of its own and whose entries carry no reference type of
    their own. Its id is a key of the storage's own: larger than every
    key of the estimates table and not below the table's counter, so a key
    no document has had before. When no stored entry already points at
    that key, the document has one entry per entry of the DTO, in the
    DTO's order; the entries have consecutive keys of the storage's own
    (not the id the client sent), larger than every key of the entries
    table and not below its counter; each has the new document as
    reference, the reference type 'SaleEstimate', no total and no amount,
    and every other property as the client sent it. *)
Theorem created_document_entries tenantId dto w g w' :
  root dto !! "id" = None →
  Forall (λ e : obj, e !! "reference_type" = None) (entries dto) →
  createEstimate outage calcAmount formatDate tenantId dto w = (Ok g, w') →
  let d := storage w tenantId in
  ∃ docId next,
    root g !! "id" = Some (VNum docId)
    ∧ (∀ r, r ∈ SaleEstimate d → rid r < docId)
    ∧ SaleEstimate_seq d ≤ docId
    ∧ (∀ r, r ∈ ItemEntry d → rid r < next)
    ∧ ItemEntry_seq d ≤ next
    ∧ (filter (λ r, belongs docId "SaleEstimate" r) (ItemEntry d) = [] →
       length (entries g) = length (entries dto)
       ∧ ∀ j e, entries dto !! j = Some e →
           ∃ c, entries g !! j = Some c
                ∧ c !! "id" = Some (VNum (next + Z.of_nat j))
                ∧ c !! "reference_id" = Some (VNum docId)
                ∧ c !! "reference_type" = Some (VStr "SaleEstimate")
                ∧ c !! "total" = None
                ∧ c !! "amount" = None
                ∧ ∀ k, k ∉ ["total"; "amount"; "id"; "reference_type";
                            "reference_id"] →
                       c !! k = e !! k).
Proof.
  intros Hid Hty H d.
  destruct (createEstimate_inserted _ _ _ _ _ _ _ _ Hid H)
    as (Hdoc & Hent & _ & _ & Hg).
  fold d in Hdoc, Hent, Hg.
  set (docId := next_key (SaleEstimate_seq d) (SaleEstimate d)) in *.
  set (next := next_key (ItemEntry_seq d) (ItemEntry d)) in *.
  exists docId, next.
  split; [rewrite Hg; cbn; apply lookup_insert_eq|].
  split; [intros r Hr; apply rid_lt_next_key, Hr|].
  split; [apply seq_le_next_key|].
  split; [intros r Hr; apply rid_lt_next_key, Hr|].
  split; [apply seq_le_next_key|].
  intros Hfree.
  set (san := λ entry : obj,
         spread {["reference_type" := VStr "SaleEstimate"]}
                (omit entry ["total"; "amount"; "id"])).
  set (ins := λ (j : nat) (c : obj),
         Row (next + Z.of_nat j) (<["reference_id" := VNum docId]> c)).
  assert (Hentries : entries g = to_obj <$> imap ins (san <$> entries dto)).
  { rewrite Hg. unfold fetch_graph, fetch_entries. cbn [entries rid].
    rewrite Hent, filter_app, Hfree. cbn [app].
    f_equal. apply filter_all. intros r Hr.
    apply elem_of_lookup_imap in Hr as (j & c & -> & Hc).
    change (entries (create_graph calcAmount formatDate dto))
      with (san <$> entries dto) in Hc.
    rewrite list_lookup_fmap in Hc.
    destruct (entries dto !! j) as [e|] eqn:He; [|discriminate].
    injection Hc as <-.
    rewrite Forall_forall in Hty.
    assert (Hte : e !! "reference_type" = None)
      by (apply Hty; eapply list_elem_of_lookup_2, He).
    unfold belongs, where_eq, ins; cbn [cols].
    apply Is_true_true, andb_true_iff. split; apply bool_decide_eq_true.
    - apply lookup_insert_eq.
    - rewrite lookup_insert_ne by discriminate.
      unfold san. rewrite lookup_written_entry, decide_False by set_solver.
      rewrite Hte. reflexivity. }
  split.
  - rewrite Hentries, length_fmap, length_imap, length_fmap. reflexivity.
  - intros j e He. rewrite Hentries.
    rewrite list_lookup_fmap, list_lookup_imap, list_lookup_fmap, He.
    cbn [fmap option_fmap option_map]. eexists. split; [reflexivity|].
    rewrite Forall_forall in Hty.
    assert (Hte : e !! "reference_type" = None)
      by (apply Hty; eapply list_elem_of_lookup_2, He).
    unfold to_obj, ins, san; cbn [rid cols].
    split; [apply lookup_insert_eq|].
    split; [rewrite lookup_insert_ne by discriminate;
            apply lookup_insert_eq|].
    repeat split; intros;
      rewrite !lookup_insert_ne by set_solver;
      rewrite lookup_written_entry.
    + rewrite decide_False by set_solver. rewrite Hte. reflexivity.
    + reflexivity.
    + reflexivity.
    + rewrite decide_False by set_solver.
      rewrite (decide_False (P := k = "reference_type")) by set_solver.
      destruct (e !! k); reflexivity.
Qed.

End CreatedDocument.

(** X7 at a second creation of E1 for the sample tenant, after the first
    E1 was deleted: the new document and its entry have the key 2, not
    the deleted key 1 again, and the client's entry id 99 and total are
    gone. *)
Lemma created_document_entries_witness :
  ∃ g c,
    returned (createEstimate reliable quantity_rate id 1 estimate_E1
                (snd (deleteEstimate reliable 1 1 world_E1))) = Some g
    ∧ root g !! "id" = Some (VNum 2)
    ∧ entries g !! 0%nat = Some c
    ∧ c !! "id" = Some (VNum 2)
    ∧ c !! "total" = None
    ∧ c !! "item_id" = Some (VNum 7).
Proof.
  set (w := snd (deleteEstimate reliable 1 1 world_E1)).
  destruct (createEstimate reliable quantity_rate id 1 estimate_E1 w)
    as [[g|e] w'] eqn:E.
  - destruct (created_document_entries reliable quantity_rate id 1
                estimate_E1 w g w')
      as (docId & next & Hroot & _ & Hseq & _ & Hnext & H);
      try exact E; try reflexivity.
    { repeat constructor. }
    assert (Eg : (root g !! "id", entries g !! 0%nat ≫= λ c, c !! "id")
                 = (Some (VNum 2), Some (VNum 2))).
    { change g with (default g (Some g)).
      replace (Some g) with
        (returned (createEstimate reliable quantity_rate id 1 estimate_E1 w))
        by (unfold returned; rewrite E; reflexivity).
      vm_compute. reflexivity. }
    injection Eg as Eroot Eentry.
    rewrite Hroot in Eroot. injection Eroot as ->.
    destruct H as [_ H]; [vm_compute; reflexivity|].
    destruct (H 0%nat two_widgets eq_refl)
      as (c & Hc & Hi & _ & _ & Ht & _ & Hk).
    exists g, c. split; [reflexivity|]. split; [exact Hroot|].
    split; [exact Hc|].
    rewrite Hc in Eentry. simpl in Eentry.
    split; [exact Eentry|]. split; [exact Ht|].
    rewrite Hk by set_solver. reflexivity.
  - exfalso.
    assert (N : thrown (createEstimate reliable quantity_rate id 1
                          estimate_E1 w) = None)
      by (vm_compute; reflexivity).
    unfold thrown in N. rewrite E in N. discriminate.
Defined.

(** ** The place of the number gate *)

(** X8. The number gate fails fast. In [createEstimate] it comes first:
    when the estimate number of the DTO is taken in the tenant, the create
    fails with SALE_ESTIMATE_NUMBER_EXISTANCE after one storage call,
    whatever the customer and the entries of the DTO are. In
    [editEstimate] it comes second, after the read of the document: when
    another document than the edited one carries the number, the edit
    fails with that error after two storage calls. A DTO without a number
    makes [createEstimate] throw the error of the query builder before
    any storage call, on whatever storage. *)
Theorem createEstimate_gate_order (calcAmount : obj → Z)
    (formatDate : val → val) tenantId dto w :
  (∀ n, root dto !! "estimate_number" = Some n →
        is_Some (find (number_taken n None)
                      (SaleEstimate (storage w tenantId))) →
        createEstimate reliable calcAmount formatDate tenantId dto w
        = (Throw duplicate_number, tick w))
  ∧ (∀ n estimateId,
       root dto !! "estimate_number" = Some n →
       is_Some (findById (SaleEstimate (storage w tenantId)) estimateId) →
       is_Some (find (number_taken n (Some estimateId))
                     (SaleEstimate (storage w tenantId))) →
       editEstimate reliable calcAmount formatDate tenantId estimateId dto w
       = (Throw duplicate_number, tick (tick w)))
  ∧ (root dto !! "estimate_number" = None →
     ∀ outage,
       createEstimate outage calcAmount formatDate tenantId dto w
       = (Throw UndefinedBinding, w)).
Proof.
  split; [|split].
  - intros n Hn [r Hr]. unfold createEstimate.
    erewrite bind_throw; [reflexivity|].
    rewrite Hn, validateEstimateNumberExistance_run, Hr. reflexivity.
  - intros n estimateId Hn [old Hold] [r Hr]. unfold editEstimate.
    rewrite (bind_ok _ _ _ old (tick w)); cycle 1.
    { unfold getSaleEstimateOrThrowError, bind, read, reliable.
      rewrite Hold. reflexivity. }
    erewrite bind_throw; [reflexivity|].
    rewrite Hn, validateEstimateNumberExistance_run. simpl storage.
    rewrite Hr. reflexivity.
  - intros Hn outage. unfold createEstimate. rewrite Hn. reflexivity.
Qed.

(** X8 at a second E1, and at an edit of E2 that takes the number E1. *)
Lemma createEstimate_gate_order_witness :
  createEstimate reliable quantity_rate id 1 estimate_E1 world_E1
  = (Throw duplicate_number, tick world_E1)
  ∧ editEstimate reliable quantity_rate id 1 2 estimate_E1 world_E1_E2
    = (Throw duplicate_number, tick (tick world_E1_E2)).
Proof.
  split.
  - apply (createEstimate_gate_order quantity_rate id 1 estimate_E1 world_E1)
      with (n := VStr "E1"); [reflexivity|].
    vm_compute. eauto.
  - apply (createEstimate_gate_order quantity_rate id 1 estimate_E1
             world_E1_E2) with (n := VStr "E1"); [reflexivity| |];
      vm_compute; eauto.
Defined.

(** ** The amount of a written document, when the client sends none *)

Lemma to_double_exact x : Z.abs x ≤ 2 ^ 53 → to_double x = x.
Proof.
  intros H. unfold to_double. cbn zeta.
  destruct (Z.leb_spec (Z.abs x) (2 ^ 53)); [reflexivity|lia].
Qed.

Lemma sum_Z_take_S z zs k :
  sum_Z (take (S k) (z :: zs)) = z + sum_Z (take k zs).
Proof. reflexivity. Qed.

(** As long as every partial sum is an integer that a double holds
    exactly, [sumBy] is the sum. *)
Lemma sumBy_exact {A} (xs : list A) (f : A → Z) :
  exact_sums (f <$> xs) → sumBy xs f = sum_Z (f <$> xs).
Proof.
  destruct xs as [|x xs]; [reflexivity|].
  cbn [sumBy fmap list_fmap]. fold (@fmap list _).
  change (sum_Z (f x :: (f <$> xs))) with (f x + sum_Z (f <$> xs)).
  intros H.
  assert (G : ∀ k, Z.abs (f x + sum_Z (take k (f <$> xs))) ≤ 2 ^ 53).
  { intros k. rewrite <- sum_Z_take_S. apply (H (S k)). }
  clear H. revert G. generalize (f x). clear x.
  induction xs as [|y xs IH]; intros acc G.
  - cbn. lia.
  - cbn [fold_left fmap list_fmap]. fold (@fmap list _).
    change (sum_Z (f y :: (f <$> xs))) with (f y + sum_Z (f <$> xs)).
    unfold js_add. rewrite to_double_exact; cycle 1.
    { specialize (G 1%nat).
      cbn [fmap list_fmap] in G. fold (@fmap list _) in G.
      rewrite sum_Z_take_S in G.
      change (sum_Z (take 0 (f <$> xs))) with 0 in G.
      replace (acc + f y) with (acc + (f y + 0)) by lia. exact G. }
    rewrite IH; [lia|].
    intros k. specialize (G (S k)).
    cbn [fmap list_fmap] in G. fold (@fmap list _) in G.
    rewrite sum_Z_take_S in G.
    replace (acc + f y + sum_Z (take k (f <$> xs)))
      with (acc + (f y + sum_Z (take k (f <$> xs)))) by lia.
    exact G.
Qed.

(** X9. For a DTO that has no [amount] of its own, and whose computed
    entry amounts add up, from the left, without leaving the integers
    that a double holds exactly: the document a successful
    [createEstimate] or [editEstimate] returns has as amount the sum of
    the computed amounts of the DTO's entries, and so has the row it
    stored. *)
Theorem stored_amount_is_the_sum outage (calcAmount : obj → Z)
    (formatDate : val → val) tenantId dto :
  root dto !! "amount" = None →
  exact_sums (calcAmount <$> entries dto) →
  let amount := sum_Z (calcAmount <$> entries dto) in
  (∀ w g w',
     createEstimate outage calcAmount formatDate tenantId dto w = (Ok g, w') →
     root g !! "amount" = Some (VNum amount)
     ∧ ∃ r, r ∈ SaleEstimate (storage w' tenantId)
            ∧ root g = to_obj r
            ∧ cols r !! "amount" = Some (VNum amount))
  ∧ (∀ estimateId w g w',
       editEstimate outage calcAmount formatDate tenantId estimateId dto w
       = (Ok g, w') →
       root g !! "amount" = Some (VNum amount)
       ∧ ∃ r, r ∈ SaleEstimate (storage w' tenantId)
              ∧ root g = to_obj r
              ∧ cols r !! "amount" = Some (VNum amount)).
Proof.
  intros Ham Hex amount. subst amount.
  rewrite <- (sumBy_exact _ _ Hex).
  assert (Hw : ∀ gr d g d' (w w' : world),
            root gr !! "amount"
            = Some (VNum (sumBy (entries dto) calcAmount)) →
            upsertGraphAndFetch gr d = Ok (g, d') →
            storage w' = set_db (storage w) tenantId d' →
            root g !! "amount" = Some (VNum (sumBy (entries dto) calcAmount))
            ∧ ∃ r, r ∈ SaleEstimate (storage w' tenantId)
                   ∧ root g = to_obj r
                   ∧ cols r !! "amount"
                     = Some (VNum (sumBy (entries dto) calcAmount))).
  { intros gr d g d' w w' Hgr Hu Hs.
    apply upsertGraphAndFetch_root in Hu as (r & Hr & -> & Hcols).
    assert (Hc : cols r !! "amount"
                 = Some (VNum (sumBy (entries dto) calcAmount)))
      by (apply Hcols; [discriminate|exact Hgr]).
    split.
    - cbn. unfold to_obj. rewrite lookup_insert_ne by discriminate.
      exact Hc.
    - exists r. rewrite Hs, set_db_same. auto. }
  destruct (written_amount_computed calcAmount formatDate 0 dto Ham)
    as [Hc _].
  split.
  - intros w g w' H.
    apply createEstimate_inv in H as (_ & _ & _ & d' & Hu & Hs & _).
    eapply Hw; eassumption.
  - intros estimateId w g w' H.
    apply editEstimate_inv in H as (_ & _ & old & d' & _ & Hu & Hs & _).
    destruct (written_amount_computed calcAmount formatDate estimateId dto
                Ham) as [_ He].
    eapply Hw; eassumption.
Qed.

(** X9 at the creation of E1 for the sample tenant: two units at 50. *)
Lemma stored_amount_is_the_sum_witness :
  ∃ g,
    returned (createEstimate reliable quantity_rate id 1 estimate_E1
                fresh_world) = Some g
    ∧ root g !! "amount" = Some (VNum 100).
Proof.
  destruct (createEstimate reliable quantity_rate id 1 estimate_E1
              fresh_world) as [[g|e] w'] eqn:E.
  - destruct (stored_amount_is_the_sum reliable quantity_rate id 1
                estimate_E1 eq_refl) as [H _].
    { intros [|[|k]]; vm_compute; discriminate. }
    destruct (H fresh_world g w' E) as [Hg _].
    exists g. split; [reflexivity|exact Hg].
  - exfalso.
    assert (N : thrown (createEstimate reliable quantity_rate id 1
                          estimate_E1 fresh_world) = None)
      by (vm_compute; reflexivity).
    unfold thrown in N. rewrite E in N. discriminate.
Defined.

(** ** What an edit does to the entries *)

Lemma omap_fmap_ext {A B C} (f : B → option C) (g : A → B)
    (h : A → option C) (l : list A) :
  (∀ x, f (g x) = h x) → omap f (g <$> l) = omap h l.
Proof.
  intros H. induction l as [|a l IH]; [reflexivity|].
  change (omap f (g <$> a :: l))
    with (match f (g a) with
          | Some y => y :: omap f (g <$> l)
          | None => omap f (g <$> l)
          end).
  rewrite H, IH. reflexivity.
Qed.

Lemma child_ids_edit_graph calcAmount formatDate estimateId dto :
  child_ids (entries (edit_graph calcAmount formatDate estimateId dto))
  = child_ids (entries dto).
Proof.
  unfold edit_graph, child_ids; cbn [entries].
  change (entries (estimateObj calcAmount formatDate dto))
    with (entries dto).
  apply omap_fmap_ext. intros e.
  rewrite lookup_written_entry, decide_False by set_solver.
  rewrite decide_False by discriminate.
  destruct (e !! "id"); reflexivity.
Qed.

Lemma children_without_ids rel cs :
  children_known rel cs = true → child_ids cs = [] →
  Forall (λ c : obj, c !! "id" = None) cs.
Proof.
  unfold children_known, child_ids.
  induction cs as [|c cs IH]; [constructor|].
  intros Hk Hids. cbn [forallb] in Hk.
  apply andb_true_iff in Hk as [Hc Hk].
  change (omap (λ c : obj, as_id (c !! "id")) (c :: cs))
    with (match as_id (c !! "id") with
          | Some y => y :: omap (λ c : obj, as_id (c !! "id")) cs
          | None => omap (λ c : obj, as_id (c !! "id")) cs
          end) in Hids.
  destruct (c !! "id") as [v|] eqn:Ec.
  - destruct (as_id (Some v)); [discriminate Hids|discriminate Hc].
  - constructor; [exact Ec|]. apply IH; assumption.
Qed.

Lemma patch_child_without_ids docId cs r :
  Forall (λ c : obj, c !! "id" = None) cs → patch_child docId cs r = r.
Proof.
  intros Hno. unfold patch_child.
  destruct (find _ cs) as [c|] eqn:E; [|reflexivity].
  apply find_some in E as [Hin Hc]. apply list_elem_of_In in Hin.
  rewrite Forall_forall in Hno. rewrite (Hno c Hin) in Hc.
  apply bool_decide_eq_true in Hc. discriminate.
Qed.

Lemma fmap_filter_negb {A} (P : A → bool) (f : A → A) (l : list A) :
  (λ x, if P x then f x else x) <$> filter (λ x, negb (P x)) l
  = filter (λ x, negb (P x)) l.
Proof.
  induction l as [|a l IH]; [reflexivity|].
  rewrite filter_cons. destruct (decide (negb (P a))) as [p|p].
  - rewrite fmap_cons, IH. destruct (P a); [destruct p|reflexivity].
  - exact IH.
Qed.

Lemma past_keys_filter (P : record → Prop) `{!∀ r, Decision (P r)} t :
  past_keys (filter P t) ≤ past_keys t.
Proof.
  unfold past_keys. induction t as [|r t IH]; [reflexivity|].
  rewrite filter_cons. destruct (decide (P r)); simpl; lia.
Qed.

(** The entries table after the statements of an update whose children
    carry no id: the rows related to the document are gone, the others
    are as they were, and one row per child follows, under the next keys
    of the table as it was before the deletes. *)
Lemma updated_entries_without_ids docId cs row d :
  Forall (λ c : obj, c !! "id" = None) cs →
  ItemEntry (patch_entries docId cs
               (patch_root row
                  (insert_entries docId cs
                     (delete_unmentioned docId cs d))))
  = filter (λ r, negb (belongs docId "SaleEstimate" r)) (ItemEntry d)
    ++ imap (λ j c, Row (next_key (ItemEntry_seq d) (ItemEntry d)
                         + Z.of_nat j)
                        (<["reference_id" := VNum docId]> c)) cs.
Proof.
  intros Hno.
  assert (Hids : child_ids cs = []).
  { unfold child_ids. induction Hno as [|c cs Hc _ IH]; [reflexivity|].
    change (omap (λ c : obj, as_id (c !! "id")) (c :: cs))
      with (match as_id (c !! "id") with
            | Some y => y :: omap (λ c : obj, as_id (c !! "id")) cs
            | None => omap (λ c : obj, as_id (c !! "id")) cs
            end).
    rewrite Hc. exact IH. }
  cbn [patch_entries patch_root insert_entries delete_unmentioned
       ItemEntry ItemEntry_seq].
  rewrite Hids.
  rewrite (filter_ext_elem_of _
             (λ r, negb (belongs docId "SaleEstimate" r)) (ItemEntry d));
    cycle 1.
  { intros r _. rewrite bool_decide_eq_false_2 by apply not_elem_of_nil.
    rewrite orb_false_r. reflexivity. }
  replace (next_key (next_key (ItemEntry_seq d) (ItemEntry d))
             (filter (λ r, negb (belongs docId "SaleEstimate" r))
                     (ItemEntry d)))
    with (next_key (ItemEntry_seq d) (ItemEntry d)); cycle 1.
  { pose proof (past_keys_filter
                  (λ r, negb (belongs docId "SaleEstimate" r)) (ItemEntry d)).
    unfold next_key. lia. }
  rewrite insert_children_no_ids by exact Hno.
  rewrite fmap_app. f_equal.
  - apply fmap_filter_negb.
  - apply list_eq. intros j.
    rewrite list_lookup_fmap, list_lookup_imap.
    destruct (cs !! j) as [c|]; [|reflexivity].
    cbn [fmap option_fmap option_map]. f_equal.
    rewrite patch_child_without_ids by exact Hno.
    destruct (belongs _ _ _); reflexivity.
Qed.

(** X10. A successful [editEstimate] replaces the entries of the document
    as a whole. For a DTO without an id of its own, in a store that holds
    no entry of the document under the reference type 'SaleEstiamte': if
    the edit returns, then no entry of the DTO carried an id, every entry
    the document had before is deleted, all other entries are kept as
    they were, and one new row per entry of the DTO is appended, with the
    document as reference and under consecutive keys of the storage's
    own: larger than every key the entries table held before the edit,
    those of the deleted rows included, and not below the table's
    counter. *)
Theorem editEstimate_replaces_entries (calcAmount : obj → Z)
    (formatDate : val → val) tenantId estimateId dto w g w' :
  root dto !! "id" = None →
  filter (λ r, belongs estimateId "SaleEstiamte" r)
         (ItemEntry (storage w tenantId)) = [] →
  editEstimate reliable calcAmount formatDate tenantId estimateId dto w
  = (Ok g, w') →
  Forall (λ e : obj, e !! "id" = None) (entries dto)
  ∧ length (entries (edit_graph calcAmount formatDate estimateId dto))
    = length (entries dto)
  ∧ ∃ next,
      (∀ r, r ∈ ItemEntry (storage w tenantId) → rid r < next)
      ∧ ItemEntry_seq (storage w tenantId) ≤ next
      ∧ ItemEntry (storage w' tenantId)
        = filter (λ r, negb (belongs estimateId "SaleEstimate" r))
                 (ItemEntry (storage w tenantId))
          ++ imap (λ j c, Row (next + Z.of_nat j)
                              (<["reference_id" := VNum estimateId]> c))
                  (entries (edit_graph calcAmount formatDate estimateId
                              dto)).
Proof.
  intros Hid Hnone H.
  assert (Hids : child_ids (entries dto) = []).
  { destruct (child_ids (entries dto)) as [|i ids] eqn:E; [reflexivity|].
    assert (N : returned (editEstimate reliable calcAmount formatDate
                            tenantId estimateId dto w) = None).
    { apply edit_claiming_entries_never_returns; [|exact Hnone].
      rewrite E. discriminate. }
    unfold returned in N. rewrite H in N. discriminate. }
  apply editEstimate_inv in H as (_ & _ & old & d' & Hold & Hu & -> & _).
  rewrite set_db_same. revert Hu.
  assert (Eid : root (edit_graph calcAmount formatDate estimateId dto)
                !! "id" = Some (VNum estimateId)).
  { change (root (edit_graph calcAmount formatDate estimateId dto))
      with (spread {["id" := VNum estimateId]}
                   (root (estimateObj calcAmount formatDate dto))).
    rewrite lookup_spread, lookup_estimateObj, Hid by set_solver.
    rewrite decide_False by discriminate. apply lookup_singleton_eq. }
  rewrite (upsertGraphAndFetch_update _ _ estimateId Eid), Hold.
  destruct (children_known _ _) eqn:Hk; [|discriminate].
  cbn zeta. intros [= _ <-].
  assert (Hno : Forall (λ c : obj, c !! "id" = None)
                  (entries (edit_graph calcAmount formatDate estimateId
                              dto))).
  { eapply children_without_ids; [exact Hk|].
    rewrite child_ids_edit_graph. exact Hids. }
  split; [|split].
  - apply Forall_forall. intros e He.
    apply list_elem_of_lookup in He as [j Hj].
    rewrite Forall_forall in Hno.
    assert (Hu : (spread {["reference_type" := VStr "SaleEstimate"]}
                         (omit e ["total"; "amount"])) !! "id" = None).
    { apply Hno. apply list_elem_of_lookup. exists j.
      rewrite edit_graph_entry, Hj. reflexivity. }
    rewrite lookup_written_entry, decide_False in Hu by set_solver.
    destruct (e !! "id"); [discriminate|reflexivity].
  - unfold edit_graph; cbn [entries]. rewrite length_fmap. reflexivity.
  - exists (next_key (ItemEntry_seq (storage w tenantId))
                     (ItemEntry (storage w tenantId))).
    split; [intros r Hr; apply rid_lt_next_key, Hr|].
    split; [apply seq_le_next_key|].
    apply updated_entries_without_ids, Hno.
Qed.

(** X10 at an edit of document 1 of the sample tenant that sends one
    entry without id: the stored entry 1 is gone, entry 2 is new. *)
Lemma editEstimate_replaces_entries_witness :
  ∃ w',
    snd (editEstimate reliable quantity_rate id 1 1 edit_E1_new_entry
           world_E1)
    = w'
    ∧ rid <$> ItemEntry (storage w' 1) = [2].
Proof.
  destruct (editEstimate reliable quantity_rate id 1 1 edit_E1_new_entry
              world_E1)
    as [[g|e] w'] eqn:E.
  - destruct (editEstimate_replaces_entries quantity_rate id 1 1
                edit_E1_new_entry world_E1 g w' eq_refl eq_refl E)
      as (_ & _ & next & _ & _ & Hent).
    exists w'. split; [reflexivity|].
    replace w' with (snd (editEstimate reliable quantity_rate id 1 1
                            edit_E1_new_entry world_E1))
      by (rewrite E; reflexivity).
    vm_compute. reflexivity.
  - exfalso.
    assert (N : thrown (editEstimate reliable quantity_rate id 1 1
                          edit_E1_new_entry world_E1)
                = None)
      by (vm_compute; reflexivity).
    unfold thrown in N. rewrite E in N. discriminate.
Defined.

(** ** The id an edit writes to *)

(** X11. [editEstimate] spreads the DTO after [id: estimateId]. When the
    DTO carries a numeric [id] of its own that differs from [estimateId],
    a successful edit has written to the document with the DTO's id: the
    returned document carries that id, and the row of [estimateId] is in
    the table exactly as before. *)
Theorem editEstimate_writes_to_dto_id outage (calcAmount : obj → Z)
    (formatDate : val → val) tenantId estimateId dto j w g w' :
  root dto !! "id" = Some (VNum j) →
  j ≠ estimateId →
  editEstimate outage calcAmount formatDate tenantId estimateId dto w
  = (Ok g, w') →
  root g !! "id" = Some (VNum j)
  ∧ is_Some (findById (SaleEstimate (storage w tenantId)) j)
  ∧ findById (SaleEstimate (storage w' tenantId)) estimateId
    = findById (SaleEstimate (storage w tenantId)) estimateId.
Proof.
  intros Hid Hne H.
  apply editEstimate_inv in H as (_ & _ & old & d' & Hold & Hu & -> & _).
  rewrite set_db_same. revert Hu.
  assert (Eid : root (edit_graph calcAmount formatDate estimateId dto)
                !! "id" = Some (VNum j)).
  { change (root (edit_graph calcAmount formatDate estimateId dto))
      with (spread {["id" := VNum estimateId]}
                   (root (estimateObj calcAmount formatDate dto))).
    rewrite lookup_spread, lookup_estimateObj, Hid by set_solver.
    reflexivity. }
  rewrite (upsertGraphAndFetch_update _ _ j Eid).
  destruct (findById (SaleEstimate (storage w tenantId)) j) as [oldj|] eqn:Ej;
    [|discriminate].
  destruct (children_known _ _); [|discriminate].
  cbn zeta. intros [= <- <-].
  cbn [patch_entries patch_root insert_entries delete_unmentioned
       SaleEstimate rid].
  split; [apply lookup_insert_eq|]. split; [eauto|].
  rewrite findById_replace_other by (reflexivity || congruence).
  reflexivity.
Qed.

(** X11 at an edit of document 1 whose DTO carries the id 2: document 2
    gets the number E9, document 1 keeps E1. *)
Lemma editEstimate_writes_to_dto_id_witness :
  ∃ g w',
    editEstimate reliable quantity_rate id 1 1 edit_with_id_2 world_E1_E2
    = (Ok g, w')
    ∧ root g !! "id" = Some (VNum 2)
    ∧ (findById (SaleEstimate (storage w' 1)) 1
         ≫= λ r, cols r !! "estimate_number") = Some (VStr "E1").
Proof.
  destruct (editEstimate reliable quantity_rate id 1 1 edit_with_id_2
              world_E1_E2) as [[g|e] w'] eqn:E.
  - destruct (editEstimate_writes_to_dto_id reliable quantity_rate id 1 1
                edit_with_id_2 2 world_E1_E2 g w' eq_refl)
      as (Hg & _ & Hrow); [discriminate|exact E|].
    exists g, w'. split; [reflexivity|]. split; [exact Hg|].
    rewrite Hrow. vm_compute. reflexivity.
  - exfalso.
    assert (N : thrown (editEstimate reliable quantity_rate id 1 1
                          edit_with_id_2 world_E1_E2) = None)
      by (vm_compute; reflexivity).
    unfold thrown in N. rewrite E in N. discriminate.
Defined.

(** ** Deleting what is not there *)

(** X12. [deleteEstimate] of an id that is not stored fails with
    SALE_ESTIMATE_NOT_FOUND after its first read: no delete is issued, no
    table changes and nothing is dispatched. In particular a document
    cannot be deleted twice: after a delete that returned, a second delete
    of the same id fails with that error and leaves the tables as the
    first delete left them. *)
Theorem deleteEstimate_missing outage tenantId estimateId w :
  (findById (SaleEstimate (storage w tenantId)) estimateId = None →
   outage (calls w) = false →
   deleteEstimate outage tenantId estimateId w
   = (Throw (ServiceError ERRORS.SALE_ESTIMATE_NOT_FOUND []), tick w))
  ∧ (∀ w1,
       deleteEstimate outage tenantId estimateId w = (Ok tt, w1) →
       outage (calls w1) = false →
       deleteEstimate outage tenantId estimateId w1
       = (Throw (ServiceError ERRORS.SALE_ESTIMATE_NOT_FOUND []), tick w1)).
Proof.
  assert (Hmiss : ∀ w0,
            findById (SaleEstimate (storage w0 tenantId)) estimateId = None →
            outage (calls w0) = false →
            deleteEstimate outage tenantId estimateId w0
            = (Throw (ServiceError ERRORS.SALE_ESTIMATE_NOT_FOUND []),
               tick w0)).
  { intros w0 Hnone Hup.
    unfold deleteEstimate, getSaleEstimateOrThrowError, bind, read.
    rewrite Hup, Hnone. reflexivity. }
  split; [apply Hmiss|].
  intros w1 H Hup. apply Hmiss; [|exact Hup].
  destruct (findById (SaleEstimate (storage w tenantId)) estimateId)
    as [r|] eqn:Er.
  - rewrite (deleteEstimate_run outage _ _ _ r Er) in H.
    destruct (outage (calls w)); [discriminate|].
    destruct (outage (S (calls w))); [discriminate|].
    cbn zeta in H.
    destruct (outage (S (S (calls w)))); [discriminate|].
    injection H as <-. cbn [storage]. rewrite set_db_same.
    apply findById_filter_ne.
  - unfold deleteEstimate, getSaleEstimateOrThrowError, bind, read in H.
    rewrite Er in H. destruct (outage (calls w)); discriminate.
Qed.

(** X12 at the unknown document 5 of the sample tenant. *)
Lemma deleteEstimate_missing_witness :
  deleteEstimate reliable 1 5 world_E1
  = (Throw (ServiceError ERRORS.SALE_ESTIMATE_NOT_FOUND []), tick world_E1).
Proof.
  destruct (deleteEstimate_missing reliable 1 5 world_E1) as [H _].
  apply H; reflexivity.
Defined.

(** ** getEstimate *)

(** X13. [getEstimate] is a read: whatever it returns or throws, no table
    has changed and nothing was dispatched. It returns exactly when the
    id is stored (and the storage answers), and then the document has the
    stored row as root, with the requested id, and as entries exactly the
    stored entries whose reference is the pair (id, 'SaleEstimate'), in
    the order of the table: no entry of another document or of another
    document type is among them. When it throws on storage that answered,
    the error is SALE_ESTIMATE_NOT_FOUND and the id is not stored. *)
Theorem getEstimate_reads outage tenantId estimateId w r w' :
  getEstimate outage tenantId estimateId w = (r, w') →
  storage w' = storage w
  ∧ dispatched w' = dispatched w
  ∧ match r with
    | Ok (g, customer) =>
        ∃ row,
          findById (SaleEstimate (storage w tenantId)) estimateId = Some row
          ∧ root g = to_obj row
          ∧ root g !! "id" = Some (VNum estimateId)
          ∧ entries g
            = to_obj <$> filter (λ e, belongs estimateId "SaleEstimate" e)
                                (ItemEntry (storage w tenantId))
          ∧ Forall (λ e : obj,
                      e !! "reference_id" = Some (VNum estimateId)
                      ∧ e !! "reference_type" = Some (VStr "SaleEstimate"))
                   (entries g)
          ∧ customer = fetch_customer (storage w tenantId) row
    | Throw e =>
        (e = StorageError ∧ outage (calls w) = true)
        ∨ (e = ServiceError ERRORS.SALE_ESTIMATE_NOT_FOUND []
           ∧ findById (SaleEstimate (storage w tenantId)) estimateId = None)
    end.
Proof.
  unfold getEstimate, bind, read.
  destruct (outage (calls w)) eqn:Hup; [intros [= <- <-]; auto|].
  destruct (findById _ estimateId) as [row|] eqn:Er;
    cbn [fmap option_fmap option_map]; intros [= <- <-];
    (split; [reflexivity|]); (split; [reflexivity|]); [|auto].
  exists row. pose proof (findById_Some _ _ _ Er) as [_ Hrid].
  split; [reflexivity|]. split; [reflexivity|].
  split; [rewrite <- Hrid; apply lookup_insert_eq|].
  split; [rewrite <- Hrid; reflexivity|].
  split; [|reflexivity].
  cbn [fetch_graph entries]. unfold fetch_entries. rewrite Hrid.
  apply Forall_forall. intros e He.
  apply list_elem_of_fmap in He as (x & -> & Hx).
  apply list_elem_of_filter in Hx as [Hb _].
  unfold belongs, where_eq in Hb.
  apply Is_true_true, andb_true_iff in Hb as [H1 H2].
  apply bool_decide_eq_true in H1, H2.
  unfold to_obj. rewrite !lookup_insert_ne by discriminate. auto.
Qed.

(** X13 at document 1 of the sample tenant. *)
Lemma getEstimate_reads_witness :
  storage (snd (getEstimate reliable 1 1 world_E1)) = storage world_E1
  ∧ dispatched (snd (getEstimate reliable 1 1 world_E1))
    = dispatched world_E1.
Proof.
  destruct (getEstimate_reads reliable 1 1 world_E1
              (fst (getEstimate reliable 1 1 world_E1))
              (snd (getEstimate reliable 1 1 world_E1)))
    as (Hs & Hd & _).
  - apply surjective_pairing.
  - split; assumption.
Defined.

(** ** The created event *)

(** X14. [createEstimate] dispatches the created event exactly when it
    returns, once, and after the graph write was applied in full: a run
    that returned has appended the one event [onCreated] to the log and
    has replaced the tenant's tables by the result of the graph write; a
    run that threw, for whatever reason, has appended no event, even when
    part of the graph write was applied. *)
Theorem created_event_iff_returned outage (calcAmount : obj → Z)
    (formatDate : val → val) tenantId dto w r w' :
  createEstimate outage calcAmount formatDate tenantId dto w = (r, w') →
  dispatched w'
  = dispatched w
    ++ match r with Ok _ => [(onCreated, None)] | Throw _ => [] end
  ∧ (fst <$> dispatched w')
    = (fst <$> dispatched w)
      ++ match r with Ok _ => [onCreated] | Throw _ => [] end
  ∧ match r with
    | Ok g =>
        ∃ d', upsertGraphAndFetch (create_graph calcAmount formatDate dto)
                (storage w tenantId) = Ok (g, d')
              ∧ storage w' = set_db (storage w) tenantId d'
    | Throw e => e ≠ StorageError → storage w' = storage w
    end.
Proof.
  intros H. apply createEstimate_inv in H as (_ & _ & H).
  destruct r as [g|e].
  - destruct H as (_ & d' & Hu & Hs & Hd). rewrite Hd, fmap_app.
    split; [reflexivity|]. split; [reflexivity|]. eauto.
  - destruct H as [Hd Hs]. rewrite Hd, !app_nil_r.
    split; [reflexivity|]. split; [reflexivity|].
    intros He. destruct Hs as [Hs|(_ & -> & _)]; [exact Hs|congruence].
Qed.

(** X14 at the creation of E1 for the sample tenant. *)
Lemma created_event_iff_returned_witness :
  fst <$> dispatched world_E1 = [onCreated].
Proof.
  destruct (created_event_iff_returned reliable quantity_rate id 1
              estimate_E1 fresh_world
              (fst (createEstimate reliable quantity_rate id 1 estimate_E1
                      fresh_world))
              world_E1 (surjective_pairing _)) as (_ & Hd & _).
  rewrite Hd. vm_compute. reflexivity.
Defined.

(** ** What a create leaves alone *)

(** X15. A successful [createEstimate] of a DTO without an id of its own
    only appends: the estimates table is the old one followed by one row,
    under a key larger than every stored key and not below the table's
    counter; the entries table is the old one followed by one row per
    entry of the DTO, under keys larger than every stored entry key and
    not below that table's counter; the item and customer tables and the
    tables of every other tenant are as they were. No stored document and
    no stored entry is changed or removed. *)
Theorem createEstimate_appends outage (calcAmount : obj → Z)
    (formatDate : val → val) tenantId dto w g w' :
  root dto !! "id" = None →
  createEstimate outage calcAmount formatDate tenantId dto w = (Ok g, w') →
  let d := storage w tenantId in
  let d' := storage w' tenantId in
  (∃ row, SaleEstimate d' = SaleEstimate d ++ [row]
          ∧ (∀ r, r ∈ SaleEstimate d → rid r < rid row)
          ∧ SaleEstimate_seq d ≤ rid row
          ∧ to_obj row = root g)
  ∧ (∃ rows, ItemEntry d' = ItemEntry d ++ rows
             ∧ length rows = length (entries dto)
             ∧ (∀ r r', r ∈ ItemEntry d → r' ∈ rows → rid r < rid r')
             ∧ ∀ r', r' ∈ rows → ItemEntry_seq d ≤ rid r')
  ∧ Item d' = Item d
  ∧ Customer d' = Customer d
  ∧ ∀ t, t ≠ tenantId → storage w' t = storage w t.
Proof.
  intros Hid H d d'.
  pose proof (createEstimate_inserted _ _ _ _ _ _ _ _ Hid H)
    as (Hdoc & Hent & Hitem & Hcust & Hg).
  apply createEstimate_inv in H as (_ & Ho & _).
  subst d d'. rewrite Hdoc, Hent, Hitem, Hcust.
  split; [|split; [|split; [|split]]]; try reflexivity.
  - eexists. split; [reflexivity|]. cbn [rid]. split; [|split].
    + intros r Hr. apply rid_lt_next_key, Hr.
    + apply seq_le_next_key.
    + rewrite Hg. reflexivity.
  - eexists. split; [reflexivity|]. split; [|split].
    + rewrite length_imap. unfold create_graph; cbn [entries].
      rewrite length_fmap. reflexivity.
    + intros r r' Hr Hr'.
      apply elem_of_lookup_imap in Hr' as (j & c & -> & _). cbn [rid].
      apply (rid_lt_next_key (ItemEntry_seq (storage w tenantId))) in Hr.
      lia.
    + intros r' Hr'.
      apply elem_of_lookup_imap in Hr' as (j & c & -> & _). cbn [rid].
      pose proof (seq_le_next_key (ItemEntry_seq (storage w tenantId))
                    (ItemEntry (storage w tenantId))).
      lia.
  - exact Ho.
Qed.

(** X15 at the creation of E2 for the sample tenant, which already holds
    E1. *)
Lemma createEstimate_appends_witness :
  rid <$> SaleEstimate (storage world_E1_E2 1) = [1; 2]
  ∧ ItemEntry (storage world_E1_E2 1) = ItemEntry (storage world_E1 1).
Proof.
  destruct (createEstimate reliable quantity_rate id 1 estimate_E2 world_E1)
    as [[g|e] w'] eqn:E.
  - destruct (createEstimate_appends reliable quantity_rate id 1 estimate_E2
                world_E1 g w' eq_refl E)
      as ((row & Hrows & _) & (rows & Hent & Hlen & _) & _).
    assert (Ew : w' = world_E1_E2)
      by (unfold world_E1_E2; rewrite E; reflexivity).
    rewrite <- Ew. split.
    + rewrite Ew. vm_compute. reflexivity.
    + rewrite Hent. destruct rows; [apply app_nil_r|discriminate].
  - exfalso.
    assert (N : thrown (createEstimate reliable quantity_rate id 1
                          estimate_E2 world_E1) = None)
      by (vm_compute; reflexivity).
    unfold thrown in N. rewrite E in N. discriminate.
Defined.

(** ** A graph write that is broken off *)

(** X16. The graph write of [createEstimate] and of [editEstimate] is not
    all or nothing. Whenever a create throws after a table has changed,
    all four gates had passed and the error is the storage's: only the
    graph write writes. In the sample tenant, when the storage breaks off
    after the first statement of the graph write: the create of E1 throws
    and dispatches nothing, and leaves document 1 stored without its
    entry; the edit of document 1 that sends one new entry throws and
    dispatches nothing, and leaves the document stored without any entry:
    the old entry is deleted and the new one is not inserted. *)
Theorem graph_write_is_not_atomic :
  (∀ outage calcAmount formatDate tenantId dto w e w',
     createEstimate outage calcAmount formatDate tenantId dto w
     = (Throw e, w') →
     storage w' ≠ storage w →
     e = StorageError ∧ gates_passed (storage w tenantId) dto)
  ∧ (let run := createEstimate reliable quantity_rate id 1 estimate_E1
                  (breaking 1 fresh_world) in
     thrown run = Some StorageError
     ∧ dispatched (snd run) = []
     ∧ rid <$> SaleEstimate (storage (snd run) 1) = [1]
     ∧ ItemEntry (storage (snd run) 1) = []
     ∧ length (entries estimate_E1) = 1%nat)
  ∧ (let run := editEstimate reliable quantity_rate id 1 1 edit_E1_new_entry
                  (breaking 1 world_E1) in
     thrown run = Some StorageError
     ∧ dispatched (snd run) = dispatched world_E1
     ∧ rid <$> SaleEstimate (storage (snd run) 1) = [1]
     ∧ rid <$> ItemEntry (storage world_E1 1) = [1]
     ∧ ItemEntry (storage (snd run) 1) = []).
Proof.
  split; [|split].
  - intros outage calcAmount formatDate tenantId dto w e w' H Hne.
    apply createEstimate_inv in H as (_ & _ & _ & [Hs|(G & -> & _)]).
    + destruct (Hne Hs).
    + auto.
  - repeat split; vm_compute; reflexivity.
  - repeat split; vm_compute; reflexivity.
Qed.

(** X16 at the create of E1 that is broken off after the insert of the
    document row. *)
Lemma graph_write_is_not_atomic_witness :
  gates_passed (storage fresh_world 1) estimate_E1.
Proof.
  destruct graph_write_is_not_atomic as [H _].
  destruct (createEstimate reliable quantity_rate id 1 estimate_E1
              (breaking 1 fresh_world)) as [[g|e] w'] eqn:E.
  - exfalso.
    assert (N : returned (createEstimate reliable quantity_rate id 1
                            estimate_E1 (breaking 1 fresh_world)) = None)
      by (vm_compute; reflexivity).
    unfold returned in N. rewrite E in N. discriminate.
  - apply (H reliable quantity_rate id 1 estimate_E1
             (breaking 1 fresh_world) e w' E).
    intros Heq.
    assert (L : length (SaleEstimate (storage w' 1)) = 1%nat).
    { replace w' with (snd (createEstimate reliable quantity_rate id 1
                              estimate_E1 (breaking 1 fresh_world)))
        by (rewrite E; reflexivity).
      vm_compute. reflexivity. }
    rewrite Heq in L. vm_compute in L. discriminate.
Defined.

